(** * Live audio session: a model of [src/hooks/use-live-api.ts] and
      [src/components/Visualizer.tsx]

    The hook [useLiveSession] keeps two pieces of React state ([status],
    [volume]) and a dozen mutable refs.  Every callback of the hook runs to
    completion on the JavaScript event loop, so a callback is modelled as a
    computation over one record holding the state, the refs and the part of
    the browser the callbacks talk to (a supply of fresh object identities
    and the sequence of platform calls issued so far).

    JavaScript numbers are modelled as rationals: the model is exact where
    the code only compares, adds and divides, and it ignores rounding. *)

From Stdlib Require Import List Bool ZArith QArith Qminmax Qabs.
From Stdlib Require Import Lia Lqa String.
Import ListNotations.

Set Implicit Arguments.

(** ** Data model *)

(** [src/types.ts]: [LiveSessionStatus]. *)
Inductive LiveSessionStatus : Type :=
| disconnected
| connecting
| connected
| error.

(** Browser objects (audio contexts, nodes, media streams, the remote
    channel) and animation-frame request ids are identified by positive
    numbers.  A request id returned by [requestAnimationFrame] is never zero,
    so the truthiness test [if (animationFrameRef.current)] is the test for
    [Some]. *)
Definition handle : Type := positive.
Bind Scope positive_scope with handle.

(** The platform calls the hook issues, in the order it issues them. *)
Inductive Call : Type :=
| NewAudioContext (ctx : handle) (sampleRate : Z)
| CreateAnalyser (ctx node : handle) (fftSize : Z)
| CreateGain (ctx node : handle)
| NodeConnect (src dst : handle)
| NodeConnectDestination (src ctx : handle)
| GetUserMedia
| LiveConnect (channel : handle)
| CreateMediaStreamSource (ctx stream node : handle)
| CreateScriptProcessor (ctx node : handle)
| SetOnAudioProcess (node : handle) (installed : bool)
| NodeDisconnect (node : handle)
| TracksStop (stream : handle)
| ContextClose (ctx : handle)
| CreateBufferSource (ctx node : handle)
| SourceStart (node : handle) (when : Q)
| SourceStop (node : handle)
| RequestAnimationFrame (id : handle)
| CancelAnimationFrame (id : handle).

(** What the callbacks handed to [ai.live.connect] close over: the local
    constants [inputCtx] and [stream] of the [connect] call that created the
    channel. *)
Record Channel : Type := mkChannel {
  channelId : handle;
  capturedInputCtx : handle;
  capturedStream : handle
}.

(** The hook's state: [status] and [volume] are the [useState] cells, the
    fields ending in [Ref] are the [useRef] cells of lines 47-58, and the
    last two fields are the browser side. *)
Record LiveSession : Type := mkLiveSession {
  status : LiveSessionStatus;
  volume : Q;
  inputAudioContextRef : option handle;
  outputAudioContextRef : option handle;
  mediaStreamRef : option handle;
  processorRef : option handle;
  inputSourceRef : option handle;
  outputGainRef : option handle;
  analyzerRef : option handle;
  sessionRef : option Channel;
  nextStartTimeRef : Q;
  sourcesRef : list handle;
  animationFrameRef : option handle;
  connectedRef : bool;
  nextHandle : handle;
  calls : list Call
}.

Definition set_status (v : LiveSessionStatus) (s : LiveSession) : LiveSession :=
  mkLiveSession v (volume s) (inputAudioContextRef s) (outputAudioContextRef
    s) (mediaStreamRef s) (processorRef s) (inputSourceRef s) (outputGainRef
    s) (analyzerRef s) (sessionRef s) (nextStartTimeRef s) (sourcesRef s)
    (animationFrameRef s) (connectedRef s) (nextHandle s) (calls s).

Definition set_volume (v : Q) (s : LiveSession) : LiveSession :=
  mkLiveSession (status s) v (inputAudioContextRef s) (outputAudioContextRef
    s) (mediaStreamRef s) (processorRef s) (inputSourceRef s) (outputGainRef
    s) (analyzerRef s) (sessionRef s) (nextStartTimeRef s) (sourcesRef s)
    (animationFrameRef s) (connectedRef s) (nextHandle s) (calls s).

Definition set_inputAudioContextRef (v : option handle) (s : LiveSession) : LiveSession :=
  mkLiveSession (status s) (volume s) v (outputAudioContextRef s)
    (mediaStreamRef s) (processorRef s) (inputSourceRef s) (outputGainRef s)
    (analyzerRef s) (sessionRef s) (nextStartTimeRef s) (sourcesRef s)
    (animationFrameRef s) (connectedRef s) (nextHandle s) (calls s).

Definition set_outputAudioContextRef (v : option handle) (s : LiveSession) : LiveSession :=
  mkLiveSession (status s) (volume s) (inputAudioContextRef s) v
    (mediaStreamRef s) (processorRef s) (inputSourceRef s) (outputGainRef s)
    (analyzerRef s) (sessionRef s) (nextStartTimeRef s) (sourcesRef s)
    (animationFrameRef s) (connectedRef s) (nextHandle s) (calls s).

Definition set_mediaStreamRef (v : option handle) (s : LiveSession) : LiveSession :=
  mkLiveSession (status s) (volume s) (inputAudioContextRef s)
    (outputAudioContextRef s) v (processorRef s) (inputSourceRef s)
    (outputGainRef s) (analyzerRef s) (sessionRef s) (nextStartTimeRef s)
    (sourcesRef s) (animationFrameRef s) (connectedRef s) (nextHandle s)
    (calls s).

Definition set_processorRef (v : option handle) (s : LiveSession) : LiveSession :=
  mkLiveSession (status s) (volume s) (inputAudioContextRef s)
    (outputAudioContextRef s) (mediaStreamRef s) v (inputSourceRef s)
    (outputGainRef s) (analyzerRef s) (sessionRef s) (nextStartTimeRef s)
    (sourcesRef s) (animationFrameRef s) (connectedRef s) (nextHandle s)
    (calls s).

Definition set_inputSourceRef (v : option handle) (s : LiveSession) : LiveSession :=
  mkLiveSession (status s) (volume s) (inputAudioContextRef s)
    (outputAudioContextRef s) (mediaStreamRef s) (processorRef s) v
    (outputGainRef s) (analyzerRef s) (sessionRef s) (nextStartTimeRef s)
    (sourcesRef s) (animationFrameRef s) (connectedRef s) (nextHandle s)
    (calls s).

Definition set_outputGainRef (v : option handle) (s : LiveSession) : LiveSession :=
  mkLiveSession (status s) (volume s) (inputAudioContextRef s)
    (outputAudioContextRef s) (mediaStreamRef s) (processorRef s)
    (inputSourceRef s) v (analyzerRef s) (sessionRef s) (nextStartTimeRef s)
    (sourcesRef s) (animationFrameRef s) (connectedRef s) (nextHandle s)
    (calls s).

Definition set_analyzerRef (v : option handle) (s : LiveSession) : LiveSession :=
  mkLiveSession (status s) (volume s) (inputAudioContextRef s)
    (outputAudioContextRef s) (mediaStreamRef s) (processorRef s)
    (inputSourceRef s) (outputGainRef s) v (sessionRef s) (nextStartTimeRef
    s) (sourcesRef s) (animationFrameRef s) (connectedRef s) (nextHandle s)
    (calls s).

Definition set_sessionRef (v : option Channel) (s : LiveSession) : LiveSession :=
  mkLiveSession (status s) (volume s) (inputAudioContextRef s)
    (outputAudioContextRef s) (mediaStreamRef s) (processorRef s)
    (inputSourceRef s) (outputGainRef s) (analyzerRef s) v (nextStartTimeRef
    s) (sourcesRef s) (animationFrameRef s) (connectedRef s) (nextHandle s)
    (calls s).

Definition set_nextStartTimeRef (v : Q) (s : LiveSession) : LiveSession :=
  mkLiveSession (status s) (volume s) (inputAudioContextRef s)
    (outputAudioContextRef s) (mediaStreamRef s) (processorRef s)
    (inputSourceRef s) (outputGainRef s) (analyzerRef s) (sessionRef s) v
    (sourcesRef s) (animationFrameRef s) (connectedRef s) (nextHandle s)
    (calls s).

Definition set_sourcesRef (v : list handle) (s : LiveSession) : LiveSession :=
  mkLiveSession (status s) (volume s) (inputAudioContextRef s)
    (outputAudioContextRef s) (mediaStreamRef s) (processorRef s)
    (inputSourceRef s) (outputGainRef s) (analyzerRef s) (sessionRef s)
    (nextStartTimeRef s) v (animationFrameRef s) (connectedRef s)
    (nextHandle s) (calls s).

Definition set_animationFrameRef (v : option handle) (s : LiveSession) : LiveSession :=
  mkLiveSession (status s) (volume s) (inputAudioContextRef s)
    (outputAudioContextRef s) (mediaStreamRef s) (processorRef s)
    (inputSourceRef s) (outputGainRef s) (analyzerRef s) (sessionRef s)
    (nextStartTimeRef s) (sourcesRef s) v (connectedRef s) (nextHandle s)
    (calls s).

Definition set_connectedRef (v : bool) (s : LiveSession) : LiveSession :=
  mkLiveSession (status s) (volume s) (inputAudioContextRef s)
    (outputAudioContextRef s) (mediaStreamRef s) (processorRef s)
    (inputSourceRef s) (outputGainRef s) (analyzerRef s) (sessionRef s)
    (nextStartTimeRef s) (sourcesRef s) (animationFrameRef s) v (nextHandle
    s) (calls s).

Definition set_nextHandle (v : handle) (s : LiveSession) : LiveSession :=
  mkLiveSession (status s) (volume s) (inputAudioContextRef s)
    (outputAudioContextRef s) (mediaStreamRef s) (processorRef s)
    (inputSourceRef s) (outputGainRef s) (analyzerRef s) (sessionRef s)
    (nextStartTimeRef s) (sourcesRef s) (animationFrameRef s) (connectedRef
    s) v (calls s).

Definition set_calls (v : list Call) (s : LiveSession) : LiveSession :=
  mkLiveSession (status s) (volume s) (inputAudioContextRef s)
    (outputAudioContextRef s) (mediaStreamRef s) (processorRef s)
    (inputSourceRef s) (outputGainRef s) (analyzerRef s) (sessionRef s)
    (nextStartTimeRef s) (sourcesRef s) (animationFrameRef s) (connectedRef
    s) (nextHandle s) v.

(** The state of a freshly mounted hook (lines 43-58). *)
Definition initialSession : LiveSession :=
  mkLiveSession disconnected 0 None None None None None None None None 0 []
    None false 1%positive [].

(** ** Callbacks as computations

    A callback either completes normally or throws; what it wrote before
    throwing stays written. *)
Inductive Exn : Type :=
| InvalidStateError
| NotAllowedError
| RangeError
| TypeError
| ClientError.

Inductive Completion (A : Type) : Type :=
| Normal (a : A)
| Throw (e : Exn).
Arguments Throw {A} e.

Definition Js (A : Type) : Type := LiveSession -> Completion A * LiveSession.

Definition ret {A} (a : A) : Js A := fun s => (Normal a, s).

Definition bind {A B} (c : Js A) (k : A -> Js B) : Js B :=
  fun s =>
    match c s with
    | (Normal a, s') => k a s'
    | (Throw e, s') => (Throw e, s')
    end.

Definition throw {A} (e : Exn) : Js A := fun s => (Throw e, s).

(** [try { c } catch (e) { h e }] *)
Definition try_catch {A} (c : Js A) (h : Exn -> Js A) : Js A :=
  fun s =>
    match c s with
    | (Normal a, s') => (Normal a, s')
    | (Throw e, s') => h e s'
    end.

Definition read {A} (f : LiveSession -> A) : Js A := fun s => (Normal (f s), s).

Definition modify (f : LiveSession -> LiveSession) : Js unit :=
  fun s => (Normal tt, f s).

Declare Scope js_scope.
Delimit Scope js_scope with js.
Notation "x <- c ;; k" := (bind c (fun x => k))
  (at level 61, c at next level, right associativity) : js_scope.
Notation "c ;; k" := (bind c (fun _ => k))
  (at level 61, right associativity) : js_scope.
Open Scope js_scope.

(** State reached by a computation, and whether it threw. *)
Definition exec {A} (c : Js A) (s : LiveSession) : LiveSession := snd (c s).

Definition throws {A} (c : Js A) (s : LiveSession) : bool :=
  match fst (c s) with Normal _ => false | Throw _ => true end.

(** Issue a platform call. *)
Definition call (c : Call) : Js unit :=
  modify (fun s => set_calls (calls s ++ [c]) s).

(** Obtain a fresh object identity. *)
Definition fresh : Js handle :=
  fun s => (Normal (nextHandle s), set_nextHandle (Pos.succ (nextHandle s)) s).

(** [if (ref.current) { body ref.current }] on a ref holding an object or
    [null]. *)
Definition when_set (ref : LiveSession -> option handle)
  (body : handle -> Js unit) : Js unit :=
  r <- read ref ;;
  match r with
  | Some h => body h
  | None => ret tt
  end.

(** [collection.forEach(f)], in iteration order. *)
Fixpoint forEach {A} (f : A -> Js unit) (l : list A) : Js unit :=
  match l with
  | [] => ret tt
  | x :: r => f x ;; forEach f r
  end.

(** ** Audio utilities

    [createBlob], [decode] and [decodeAudioData] are imported from
    [../utils/audio-utils] (line 3), whose source is not available. *)
Module AudioUtils.

Local Open Scope Z_scope.

(** A decoded, playable buffer: one list of samples per channel. *)
Record AudioBuffer : Type := mkAudioBuffer {
  sampleRate : positive;
  frameCount : nat;
  channelData : list (list Q)
}.

(** [AudioBuffer.duration]: the number of sample frames over the sample
    rate, in seconds. *)
Definition duration (b : AudioBuffer) : Q :=
  (Z.of_nat (frameCount b) # sampleRate b)%Q.

Definition sampleWidthBytes : nat := 2.

(** Modelled from the spec: section 4.2 reads the bytes as 16-bit signed
    little-endian samples.  The value of two bytes read that way. *)
Definition int16_of_le (lo hi : Z) : Z :=
  let u := lo + 256 * hi in
  if u <? 32768 then u else u - 65536.

(** Modelled from the spec: section 4.1 writes each sample as a 16-bit
    signed little-endian integer.  Its two bytes, low byte first. *)
Definition le_of_int16 (n : Z) : list Z :=
  [n mod 256; (n / 256) mod 256].

(** Modelled from the spec: section 4.2, the bytes taken two at a time. *)
Fixpoint int16_samples (bytes : list Z) : list Z :=
  match bytes with
  | lo :: hi :: rest => int16_of_le lo hi :: int16_samples rest
  | _ => []
  end.

(** Modelled from the spec: section 4.2 normalizes each 16-bit sample to
    the floating-point range [-1, 1]. *)
Definition normalize (n : Z) : Q := (n # 32768)%Q.

(** Modelled from the spec: section 4.2, de-interleaving.  Sample [i] of
    channel [c] is read from flat index [i * channelCount + c]. *)
Definition deinterleave (flat : list Q) (channelCount frames c : nat)
  : list Q :=
  map (fun i => nth (i * channelCount + c)%nat flat 0%Q) (seq 0 frames).

(** Modelled from the spec: [decodeAudioData] of [utils/audio-utils] is
    missing from the sources.  Section 4.2: the bytes are read as 16-bit
    signed little-endian samples, each normalized to [-1, 1], and assembled
    into a buffer of the requested rate and channel count, de-interleaving
    by flat index; it fails when the byte length is not a whole multiple of
    the per-sample-per-channel byte width. *)
Definition decodeAudioData (data : list Z) (rate : positive)
  (numChannels : nat) : Completion AudioBuffer :=
  let width := (sampleWidthBytes * numChannels)%nat in
  if (List.length data mod width =? 0)%nat then
    let flat := map normalize (int16_samples data) in
    let frames := (List.length data / width)%nat in
    Normal (mkAudioBuffer rate frames
              (map (deinterleave flat numChannels frames) (seq 0 numChannels)))
  else Throw RangeError.

(** Modelled from the spec: section 4.1 clamps to the representable
    range of a 16-bit signed integer. *)
Definition clamp16 (n : Z) : Z := Z.max (-32768) (Z.min 32767 n).

(** Conversion of a number to an integer by dropping its fraction, as a
    store into an [Int16Array] does. *)
Definition truncate (x : Q) : Z := Z.quot (Qnum x) (Z.pos (Qden x)).

Section Encoder.

(** How a scaled sample is turned into an integer is not fixed by the
    specification; the encoder is stated over any conversion. *)
Variable toInteger : Q -> Z.

(** Modelled from the spec: the per-sample step of [createBlob].
    Section 4.1: a sample in [-1, 1] becomes a 16-bit signed integer,
    clamped to the representable range, at the 16-bit quantization step
    1/32768 of section 8. *)
Definition encodeSample (x : Q) : Z := clamp16 (toInteger (x * 32768)%Q).

(** Modelled from the spec: [createBlob] of [utils/audio-utils] is missing
    from the sources.  Section 4.1: the bytes of a frame are its samples in
    order, each as a 16-bit signed little-endian integer.  The constant
    descriptor attached to the bytes is left out. *)
Definition createBlob (frame : list Q) : list Z :=
  flat_map (fun x => le_of_int16 (encodeSample x)) frame.

End Encoder.

End AudioUtils.

Section Hook.

(** [AudioBufferSourceNode.stop()] throws on a node the platform considers to
    be in the wrong state; which nodes those are is left to the platform. *)
Variable stop_throws : handle -> bool.

Definition source_stop (h : handle) : Js unit :=
  call (SourceStop h) ;;
  if stop_throws h then throw InvalidStateError else ret tt.

(** Lines 91-94 and 199-202: stop every source, ignoring what [stop] throws,
    then empty the set.  The set [sourcesRef] is kept in insertion order,
    which is the order [Set.prototype.forEach] visits it in. *)
Definition stopAllSources : Js unit :=
  srcs <- read sourcesRef ;;
  forEach (fun h => try_catch (source_stop h) (fun _ => ret tt)) srcs ;;
  modify (set_sourcesRef []).

(** [disconnect], lines 60-103. *)
Definition disconnect : Js unit :=
  modify (set_connectedRef false) ;;
  when_set processorRef (fun p =>
    call (NodeDisconnect p) ;;
    call (SetOnAudioProcess p false) ;;
    modify (set_processorRef None)) ;;
  when_set inputSourceRef (fun n =>
    call (NodeDisconnect n) ;;
    modify (set_inputSourceRef None)) ;;
  when_set mediaStreamRef (fun m =>
    call (TracksStop m) ;;
    modify (set_mediaStreamRef None)) ;;
  when_set inputAudioContextRef (fun c =>
    call (ContextClose c) ;;
    modify (set_inputAudioContextRef None)) ;;
  when_set outputAudioContextRef (fun c =>
    call (ContextClose c) ;;
    modify (set_outputAudioContextRef None)) ;;
  stopAllSources ;;
  when_set animationFrameRef (fun id =>
    call (CancelAnimationFrame id) ;;
    modify (set_animationFrameRef None)) ;;
  modify (set_status disconnected) ;;
  modify (set_volume 0).
(** Line 3: [decode] reverses the transport encoding of a payload into raw
    bytes.  It belongs to the missing [utils/audio-utils]; the callbacks are
    stated over any such function. *)
Variable decode : string -> list Z.

(** The parts of a [LiveServerMessage] the hook reads:
    [serverContent?.modelTurn?.parts?.[0]?.inlineData?.data] and
    [serverContent?.interrupted]. *)
Record LiveServerMessage : Type := mkMessage {
  inlineData : option string;
  interrupted : bool
}.

(** [if (base64Audio)]: an absent or empty string is falsy. *)
Definition truthy (o : option string) : option string :=
  match o with
  | Some EmptyString => None
  | Some b => Some b
  | None => None
  end.

(** [Set.prototype.add]. *)
Definition set_add (h : handle) (l : list handle) : list handle :=
  if existsb (Pos.eqb h) l then l else l ++ [h].

(** [Set.prototype.delete]. *)
Definition set_delete (h : handle) (l : list handle) : list handle :=
  filter (fun x => negb (Pos.eqb h x)) l.

Definition lift {A} (r : Completion A) : Js A := fun s => (r, s).

(** Lines 170-195, the audio part of [onmessage].  [currentTime] is the
    value of [ctx.currentTime] when the message is handled.  The result
    tells whether the handler goes on ([false] is the [return] of
    line 173). *)
Definition playAudio (message : LiveServerMessage) (currentTime : Q)
  : Js bool :=
  match truthy (inlineData message) with
  | Some base64Audio =>
      octx <- read outputAudioContextRef ;;
      match octx with
      | None => ret false
      | Some ctx =>
          modify (fun s =>
            set_nextStartTimeRef (Qmax (nextStartTimeRef s) currentTime) s) ;;
          audioBuffer <-
            lift (AudioUtils.decodeAudioData (decode base64Audio) 24000 1) ;;
          source <- fresh ;;
          call (CreateBufferSource ctx source) ;;
          gain <- read outputGainRef ;;
          match gain with
          | Some g => call (NodeConnect source g)
          | None => throw TypeError
          end ;;
          start <- read nextStartTimeRef ;;
          call (SourceStart source start) ;;
          modify (fun s =>
            set_nextStartTimeRef
              (nextStartTimeRef s + AudioUtils.duration audioBuffer) s) ;;
          modify (fun s => set_sourcesRef (set_add source (sourcesRef s)) s) ;;
          ret true
      end
  | None => ret true
  end.

(** Lines 198-204, the interruption part of [onmessage]. *)
Definition interrupt : Js unit :=
  stopAllSources ;;
  modify (set_nextStartTimeRef 0).

(** [onmessage], lines 168-205.  The handler awaits [decodeAudioData] and is
    taken to run without another callback in between. *)
Definition onmessage (message : LiveServerMessage) (currentTime : Q)
  : Js unit :=
  continue <- playAudio message currentTime ;;
  if continue && interrupted message then interrupt else ret tt.

(** Lines 188-190: the listener each scheduled source carries. *)
Definition onended (source : handle) : Js unit :=
  modify (fun s => set_sourcesRef (set_delete source (sourcesRef s)) s).

(** [onopen], lines 143-167. *)
Definition onopen (ch : Channel) : Js unit :=
  modify (set_status connected) ;;
  modify (set_connectedRef true) ;;
  source <- fresh ;;
  call (CreateMediaStreamSource (capturedInputCtx ch) (capturedStream ch)
          source) ;;
  modify (set_inputSourceRef (Some source)) ;;
  processor <- fresh ;;
  call (CreateScriptProcessor (capturedInputCtx ch) processor) ;;
  modify (set_processorRef (Some processor)) ;;
  call (SetOnAudioProcess processor true) ;;
  call (NodeConnect source processor) ;;
  call (NodeConnectDestination processor (capturedInputCtx ch)).

(** [onclose], lines 206-209. *)
Definition onclose : Js unit := disconnect.

(** [onerror], lines 210-214. *)
Definition onerror : Js unit :=
  disconnect ;;
  modify (set_status error).

(** [dataArray.reduce((a, b) => a + b)]: throws on an empty array. *)
Definition reduce_sum (data : list Z) : Completion Z :=
  match data with
  | [] => Throw TypeError
  | x :: rest => Normal (fold_left Z.add rest x)
  end.

Definition is_set {A} (o : option A) : bool :=
  match o with Some _ => true | None => false end.

(** [updateVolume], lines 221-231.  [bins] is what [getByteFrequencyData]
    writes into [dataArray]. *)
Definition updateVolume (bins : list Z) : Js unit :=
  a <- read analyzerRef ;;
  c <- read connectedRef ;;
  (if is_set a && c then
     total <- lift (reduce_sum bins) ;;
     modify (set_volume
               (inject_Z total / inject_Z (Z.of_nat (List.length bins))))
   else ret tt) ;;
  c' <- read connectedRef ;;
  if c' then
    id <- fresh ;;
    call (RequestAnimationFrame id) ;;
    modify (set_animationFrameRef (Some id))
  else ret tt.

(** Outcome of [navigator.mediaDevices.getUserMedia]. *)
Inductive MediaResult : Type := Granted | Denied.

(** [connect], lines 105-126, up to the point where it awaits the
    microphone.  [rendered] is the value of [status] the callback closed
    over.  The result carries the locals [inputCtx] and [outputCtx];
    [None] is the [return] of line 106.  Creating the contexts and nodes is
    taken not to throw. *)
Definition connect_setup (rendered : LiveSessionStatus)
  : Js (option (handle * handle)) :=
  match rendered with
  | connected | connecting => ret None
  | _ =>
      modify (set_status connecting) ;;
      inputCtx <- fresh ;;
      call (NewAudioContext inputCtx 16000) ;;
      outputCtx <- fresh ;;
      call (NewAudioContext outputCtx 24000) ;;
      modify (set_inputAudioContextRef (Some inputCtx)) ;;
      modify (set_outputAudioContextRef (Some outputCtx)) ;;
      analyzer <- fresh ;;
      call (CreateAnalyser outputCtx analyzer 256) ;;
      modify (set_analyzerRef (Some analyzer)) ;;
      outputGain <- fresh ;;
      call (CreateGain outputCtx outputGain) ;;
      modify (set_outputGainRef (Some outputGain)) ;;
      call (NodeConnect outputGain analyzer) ;;
      call (NodeConnectDestination analyzer outputCtx) ;;
      call GetUserMedia ;;
      ret (Some (inputCtx, outputCtx))
  end.

(** The [catch] block of [connect], lines 236-240. *)
Definition connect_catch : Js unit :=
  modify (set_status error) ;;
  disconnect.

(** [connect], lines 126-240, from the point where the microphone request
    settles: the rest of the [try] block and the [catch] block.
    [clientFails] tells whether creating the client or opening the channel
    throws. *)
Definition connect_resume (inputCtx : handle) (media : MediaResult)
  (clientFails : bool) (bins : list Z) : Js unit :=
  try_catch
    (stream <- match media with
               | Granted => fresh
               | Denied => throw NotAllowedError
               end ;;
     modify (set_mediaStreamRef (Some stream)) ;;
     (if clientFails then throw ClientError else ret tt) ;;
     channel <- fresh ;;
     call (LiveConnect channel) ;;
     modify (set_sessionRef (Some (mkChannel channel inputCtx stream))) ;;
     modify (set_connectedRef true) ;;
     updateVolume bins)
    (fun _ => connect_catch).

(** A whole [connect] call with nothing else running while it awaits. *)
Definition connect (rendered : LiveSessionStatus) (media : MediaResult)
  (clientFails : bool) (bins : list Z) : Js unit :=
  locals <- connect_setup rendered ;;
  match locals with
  | Some (inputCtx, _) => connect_resume inputCtx media clientFails bins
  | None => ret tt
  end.

(** The cleanup of the effect of lines 244-248, run on unmount. *)
Definition unmount : Js unit := disconnect.

End Hook.

(** ** The visualizer, [src/components/Visualizer.tsx] *)
Module Visualizer.

(** The inline styles of the three circles. *)
Record Rendered : Type := mkRendered {
  outerPulseScale : Q;
  outerPulseOpacity : Q;
  middleRingScale : Q;
  middleRingOpacity : Q;
  innerCoreScale : Q;
  innerCoreActive : bool
}.

(** Line 10. *)
Definition scale (volume : Q) (isActive : bool) : Q :=
  if isActive then 1 + (volume / 255) * (3 # 2) else 1.

(** Line 11. *)
Definition opacity (volume : Q) (isActive : bool) : Q :=
  if isActive then (6 # 10) + (volume / 255) * (4 # 10) else 3 # 10.

(** Lines 13-53. *)
Definition Visualizer (volume : Q) (isActive : bool) : Rendered :=
  mkRendered
    (if isActive then 1 + volume / 500 else 8 # 10)
    (if isActive then volume / 600 else 0)
    (scale volume isActive * (9 # 10))
    (opacity volume isActive)
    (if isActive then 1 + volume / 800 else 1)
    isActive.

(** [App], the call site: [isActive={status === 'connected'}]. *)
Definition isActiveOf (st : LiveSessionStatus) : bool :=
  match st with connected => true | _ => false end.

End Visualizer.

(** ** Vocabulary of the statements *)

(** The calls a ref holding an object gives rise to. *)
Definition calls_for (o : option handle) (f : handle -> list Call)
  : list Call :=
  match o with
  | Some h => f h
  | None => []
  end.

(** The release calls teardown owes a session, in the order of lines
    68-99. *)
Definition teardown_calls (s : LiveSession) : list Call :=
  calls_for (processorRef s)
    (fun p => [NodeDisconnect p; SetOnAudioProcess p false]) ++
  calls_for (inputSourceRef s) (fun n => [NodeDisconnect n]) ++
  calls_for (mediaStreamRef s) (fun m => [TracksStop m]) ++
  calls_for (inputAudioContextRef s) (fun c => [ContextClose c]) ++
  calls_for (outputAudioContextRef s) (fun c => [ContextClose c]) ++
  map SourceStop (sourcesRef s) ++
  calls_for (animationFrameRef s) (fun id => [CancelAnimationFrame id]).

(** No device or resource handle is held: the five refs teardown clears,
    the in-flight set and the pending animation frame. *)
Definition released (s : LiveSession) : Prop :=
  processorRef s = None /\
  inputSourceRef s = None /\
  mediaStreamRef s = None /\
  inputAudioContextRef s = None /\
  outputAudioContextRef s = None /\
  sourcesRef s = [] /\
  animationFrameRef s = None.

(** A session on which teardown has run and nothing since. *)
Definition torn_down (s : LiveSession) : Prop :=
  status s = disconnected /\
  volume s = 0 /\
  connectedRef s = false /\
  released s.

(** The fields that do not belong to the playback scheduler or to the
    browser are the same in both sessions. *)
Definition same_outside_scheduler (s s' : LiveSession) : Prop :=
  status s' = status s /\
  volume s' = volume s /\
  inputAudioContextRef s' = inputAudioContextRef s /\
  outputAudioContextRef s' = outputAudioContextRef s /\
  mediaStreamRef s' = mediaStreamRef s /\
  processorRef s' = processorRef s /\
  inputSourceRef s' = inputSourceRef s /\
  outputGainRef s' = outputGainRef s /\
  analyzerRef s' = analyzerRef s /\
  sessionRef s' = sessionRef s /\
  animationFrameRef s' = animationFrameRef s /\
  connectedRef s' = connectedRef s.

(** The start times of the [start] calls among [cs], in call order. *)
Definition start_times (cs : list Call) : list Q :=
  flat_map (fun c => match c with SourceStart _ t => [t] | _ => [] end) cs.

(** The start times the scheduler owes a run of chunks, each given by its
    duration and the output clock at its arrival: a chunk starts at the
    later of the cursor and the clock, and the cursor moves to the end of
    the chunk. *)
Fixpoint timeline (next : Q) (chunks : list (Q * Q)) : list Q :=
  match chunks with
  | [] => []
  | (d, t) :: rest => Qmax next t :: timeline (Qmax next t + d) rest
  end.

Fixpoint timeline_end (next : Q) (chunks : list (Q * Q)) : Q :=
  match chunks with
  | [] => next
  | (d, t) :: rest => timeline_end (Qmax next t + d) rest
  end.

(** 0, d1, d1 + d2, ... *)
Fixpoint prefix_sums (acc : Q) (ds : list Q) : list Q :=
  match ds with
  | [] => []
  | d :: rest => acc :: prefix_sums (acc + d) rest
  end.

(** Playback windows, each a start time and a duration, listed in playing
    order: every window ends before any later one starts. *)
Definition non_overlapping (windows : list (Q * Q)) : Prop :=
  ForallOrdPairs (fun a b => fst a + snd a <= fst b) windows.

(** The number of microphone requests among [cs]: one per setup attempt. *)
Definition setup_attempts (cs : list Call) : nat :=
  List.length
    (filter (fun c => match c with GetUserMedia => true | _ => false end) cs).

(** The animation-frame requests among [cs]. *)
Definition frame_requests (cs : list Call) : list handle :=
  flat_map
    (fun c => match c with RequestAnimationFrame id => [id] | _ => [] end) cs.

(** The mean [updateVolume] publishes for a non-empty array of bins. *)
Definition mean (bins : list Z) : Q :=
  inject_Z (fold_left Z.add (tl bins) (hd 0%Z bins))
  / inject_Z (Z.of_nat (List.length bins)).

(** Every decoded sample is within the 16-bit quantization step of the
    sample it was encoded from. *)
Definition within_quantization (original decoded : list Q) : Prop :=
  Forall2 (fun x y => Qabs (y - x) <= 1 # 32768) original decoded.

Section Runs.

Variable stop_throws : handle -> bool.
Variable decode : string -> list Z.

(** Messages handled one after the other, each with the output clock at
    its arrival. *)
Fixpoint run_messages (ms : list (LiveServerMessage * Q)) : Js unit :=
  match ms with
  | [] => ret tt
  | (m, t) :: rest =>
      onmessage stop_throws decode m t ;; run_messages rest
  end.

(** An audio chunk as it arrives: payload, the buffer it decodes to, and
    the output clock at arrival. *)
Definition Chunk : Type := (string * AudioUtils.AudioBuffer * Q)%type.

Definition chunk_message (c : Chunk) : LiveServerMessage * Q :=
  (mkMessage (Some (fst (fst c))) false, snd c).

Definition chunk_timing (c : Chunk) : Q * Q :=
  (AudioUtils.duration (snd (fst c)), snd c).

(** The payload is a non-empty string that decodes to the buffer as 24 kHz
    mono. *)
Definition decodes (c : Chunk) : Prop :=
  fst (fst c) <> EmptyString /\
  AudioUtils.decodeAudioData (decode (fst (fst c))) 24000 1
  = Normal (snd (fst c)).

End Runs.

(** ** Sample inputs *)

(** A platform on which [stop] never throws. *)
Definition stop_never_throws : handle -> bool := fun _ => false.

(** A transport decoding for the examples: every character stands for the
    byte of its code. *)
Definition byte_codes (p : string) : list Z :=
  map (fun a => Z.of_nat (Ascii.nat_of_ascii a)) (list_ascii_of_string p).

Definition sample_bins : list Z := [10; 20; 30; 40]%Z.

(** The session after a [connect] call whose microphone request was
    granted, before the channel has opened. *)
Definition connecting_session : LiveSession :=
  exec (connect stop_never_throws disconnected Granted false sample_bins)
    initialSession.

(** The same session once the channel has signalled [open]. *)
Definition connected_session : LiveSession :=
  exec (onopen (mkChannel 6 1 5)) connecting_session.

(** The connected session with one chunk of two sample frames
    scheduled. *)
Definition playing_session : LiveSession :=
  exec (onmessage stop_never_throws byte_codes
          (mkMessage (Some "abcd"%string) false) 0)
    connected_session.

(** Two chunks arriving with the output clock at 0, of two sample frames
    and of one. *)
Definition sample_chunks : list Chunk :=
  [("abcd"%string,
    AudioUtils.mkAudioBuffer 24000 2 [[25185 # 32768; 25699 # 32768]], 0);
   ("ab"%string, AudioUtils.mkAudioBuffer 24000 1 [[25185 # 32768]], 0)].

(** A message whose payload decodes to three bytes. *)
Definition malformed_message : LiveServerMessage :=
  mkMessage (Some "abc"%string) false.

Definition sample_frame : list Q := [1; -1; 1 # 2; -1 # 3].

(** ** The application, [App.tsx] *)
Section Application.

Variable stop_throws : handle -> bool.

(** [handleToggle], lines 263-269 of the listing, up to the point where the
    [connect] it calls awaits the microphone.  [rendered] is the [status]
    of the render the handler belongs to, which is also the one its
    [connect] closed over. *)
Definition handleToggle (rendered : LiveSessionStatus)
  : Js (option (handle * handle)) :=
  match rendered with
  | connected | connecting => disconnect stop_throws ;; ret None
  | _ => connect_setup rendered
  end.

(** Line 310: the visualizer as [App] renders it for a session. *)
Definition renderedVisualizer (s : LiveSession) : Visualizer.Rendered :=
  Visualizer.Visualizer (volume s) (Visualizer.isActiveOf (status s)).

End Application.

(** ** The callbacks as the environment drives them *)

(** One invocation of a callback of the hook, with what the platform hands
    it: the caller's [connect] and [disconnect], the settling of the
    microphone request a [connect] awaits, the four channel events, the
    [ended] event of a source, an animation frame, and the unmount
    cleanup. *)
Inductive Callback : Type :=
| ConnectCalled (rendered : LiveSessionStatus)
| MicrophoneSettled (inputCtx : handle) (media : MediaResult)
    (clientFails : bool) (bins : list Z)
| Opened (ch : Channel)
| MessageReceived (m : LiveServerMessage) (currentTime : Q)
| SourceEnded (source : handle)
| Closed
| Errored
| FrameFired (bins : list Z)
| DisconnectCalled
| Unmounted.

(** What [getByteFrequencyData] writes: bytes. *)
Definition byte_valued (bins : list Z) : Prop :=
  Forall (fun b => (0 <= b <= 255)%Z) bins.

Definition frames_byte_valued (c : Callback) : Prop :=
  match c with
  | MicrophoneSettled _ _ _ bins => byte_valued bins
  | FrameFired bins => byte_valued bins
  | _ => True
  end.

Section Driver.

Variable stop_throws : handle -> bool.
Variable decode : string -> list Z.

Definition invoke (c : Callback) : Js unit :=
  match c with
  | ConnectCalled rendered => connect_setup rendered ;; ret tt
  | MicrophoneSettled inputCtx media clientFails bins =>
      connect_resume stop_throws inputCtx media clientFails bins
  | Opened ch => onopen ch
  | MessageReceived m t => onmessage stop_throws decode m t
  | SourceEnded h => onended h
  | Closed => onclose stop_throws
  | Errored => onerror stop_throws
  | FrameFired bins => updateVolume bins
  | DisconnectCalled => disconnect stop_throws
  | Unmounted => unmount stop_throws
  end.

(** Callbacks run one after the other, each as a task of its own: what one
    throws does not keep the next from running. *)
Definition run_callbacks (cs : list Callback) (s : LiveSession)
  : LiveSession :=
  fold_left (fun s' c => exec (invoke c) s') cs s.

End Driver.

(** The refs agree with each other. *)
Definition refs_consistent (s : LiveSession) : Prop :=
  (outputAudioContextRef s <> None ->
   outputGainRef s <> None /\ analyzerRef s <> None) /\
  is_set (inputAudioContextRef s) = is_set (outputAudioContextRef s) /\
  is_set (processorRef s) = is_set (inputSourceRef s) /\
  (animationFrameRef s <> None -> connectedRef s = true) /\
  (status s = connected -> connectedRef s = true).

(** The in-flight set holds each source once, and only sources the hook
    has created. *)
Definition inflight_fresh (s : LiveSession) : Prop :=
  NoDup (sourcesRef s) /\
  Forall (fun h => (h < nextHandle s)%positive) (sourcesRef s).

(** The styles of a rendered visualizer are within the given bounds. *)
Definition styles_bounded (r : Visualizer.Rendered) : Prop :=
  8 # 10 <= Visualizer.outerPulseScale r <= 151 # 100 /\
  0 <= Visualizer.outerPulseOpacity r <= 1 /\
  9 # 10 <= Visualizer.middleRingScale r <= 225 # 100 /\
  0 <= Visualizer.middleRingOpacity r <= 1 /\
  1 <= Visualizer.innerCoreScale r <= 2.

(** A run of callbacks: a granted [connect], the [open] of its channel and
    two animation frames. *)
Definition sample_run : list Callback :=
  [ConnectCalled disconnected;
   MicrophoneSettled 1 Granted false sample_bins;
   Opened (mkChannel 6 1 5);
   FrameFired [255; 255]%Z;
   FrameFired [0; 128; 255]%Z].

(** ** Teardown and interruption *)
Section Callbacks.

Variable stop_throws : handle -> bool.
Variable decode : string -> list Z.

Lemma set_calls_calls s : set_calls (calls s) s = s.
Proof. destruct s; reflexivity. Qed.

Lemma forEach_stop_run (srcs : list handle) (s : LiveSession) :
  forEach (fun h => try_catch (source_stop stop_throws h) (fun _ => ret tt))
    srcs s
  = (Normal tt, set_calls (calls s ++ map SourceStop srcs) s).
Proof.
  revert s; induction srcs as [|h srcs IH]; intro s.
  - cbn. rewrite app_nil_r, set_calls_calls. reflexivity.
  - cbn [forEach map]. unfold bind at 1.
    assert (Hh : try_catch (source_stop stop_throws h) (fun _ => ret tt) s
                 = (Normal tt, set_calls (calls s ++ [SourceStop h]) s)).
    { unfold try_catch, source_stop, bind, call, modify, throw, ret.
      destruct (stop_throws h); reflexivity. }
    rewrite Hh, IH. cbn. rewrite <- app_assoc. reflexivity.
Qed.

Lemma stopAllSources_run (s : LiveSession) :
  stopAllSources stop_throws s
  = (Normal tt,
     set_sourcesRef []
       (set_calls (calls s ++ map SourceStop (sourcesRef s)) s)).
Proof.
  unfold stopAllSources, bind at 1, read.
  unfold bind. rewrite forEach_stop_run. reflexivity.
Qed.

(** What [disconnect] computes, in closed form. *)
Lemma disconnect_run (s : LiveSession) :
  disconnect stop_throws s
  = (Normal tt,
     mkLiveSession disconnected 0 None None None None None
       (outputGainRef s) (analyzerRef s) (sessionRef s)
       (nextStartTimeRef s) [] None false (nextHandle s)
       (calls s ++ teardown_calls s)).
Proof.
  destruct s as [st vol ictx octx ms pr isrc og an se nx srcs af cr nh cs].
  unfold disconnect, when_set, teardown_calls, calls_for.
  destruct pr, isrc, ms, ictx, octx, af;
    cbv -[stopAllSources app map];
    rewrite stopAllSources_run;
    cbv -[app map];
    repeat rewrite <- app_assoc; cbn [app]; try rewrite app_nil_r;
    reflexivity.
Qed.

Lemma interrupt_run (s : LiveSession) :
  interrupt stop_throws s
  = (Normal tt,
     set_nextStartTimeRef 0
       (set_sourcesRef []
          (set_calls (calls s ++ map SourceStop (sourcesRef s)) s))).
Proof.
  unfold interrupt, bind. rewrite stopAllSources_run. reflexivity.
Qed.

(** C7: [disconnect] never raises; it always ends with status
    [disconnected], volume 0, the connected flag cleared, the in-flight set
    empty and every device and resource ref cleared, having issued the
    release call of each handle that was held; it is idempotent, a second
    call changing nothing and issuing no call; and on a session already
    torn down it performs no operation. *)
Theorem disconnect_idempotent_total (s : LiveSession) :
  let s' := exec (disconnect stop_throws) s in
  throws (disconnect stop_throws) s = false /\
  torn_down s' /\
  calls s' = calls s ++ teardown_calls s /\
  disconnect stop_throws s' = (Normal tt, s') /\
  exec (onclose stop_throws) s = s' /\
  (torn_down s -> disconnect stop_throws s = (Normal tt, s)).
Proof.
  unfold exec, throws, onclose. rewrite disconnect_run. cbn [fst snd].
  split; [reflexivity|].
  split; [unfold torn_down, released; cbn; tauto|].
  split; [reflexivity|].
  split.
  { rewrite disconnect_run. cbn. rewrite app_nil_r. reflexivity. }
  split; [reflexivity|].
  intros (Hst & Hvol & Hcr & Hp & Hi & Hm & Hic & Hoc & Hsrc & Haf).
  destruct s; cbn in *; subst. cbn. rewrite app_nil_r. reflexivity.
Qed.

(** C4: [interrupt], which is what [onmessage] does with a message that
    only carries the interruption flag, calls [stop] on every source of the
    in-flight set, does not raise even where [stop] throws, empties the set
    and resets [nextStartTime] to zero; run a second time it changes nothing
    and issues no call. *)
Theorem interrupt_stops_clears_resets (s : LiveSession) :
  let s' := exec (interrupt stop_throws) s in
  (forall t,
     onmessage stop_throws decode (mkMessage None true) t s
     = interrupt stop_throws s) /\
  throws (interrupt stop_throws) s = false /\
  calls s' = calls s ++ map SourceStop (sourcesRef s) /\
  sourcesRef s' = [] /\
  nextStartTimeRef s' = 0 /\
  interrupt stop_throws s' = (Normal tt, s').
Proof.
  unfold exec, throws. split; [reflexivity|].
  rewrite interrupt_run. cbn [fst snd].
  split; [reflexivity|].
  split; [reflexivity|].
  split; [reflexivity|].
  split; [reflexivity|].
  rewrite interrupt_run. destruct s; cbv -[app map].
  rewrite app_nil_r. reflexivity.
Qed.

(** ** Inbound messages *)

Lemma same_outside_scheduler_refl s : same_outside_scheduler s s.
Proof. unfold same_outside_scheduler. tauto. Qed.

Lemma same_outside_scheduler_trans s1 s2 s3 :
  same_outside_scheduler s1 s2 -> same_outside_scheduler s2 s3 ->
  same_outside_scheduler s1 s3.
Proof.
  unfold same_outside_scheduler. intros H12 H23.
  decompose [and] H12; decompose [and] H23.
  repeat split; congruence.
Qed.

Lemma truthy_nonempty (p : string) :
  p <> EmptyString -> truthy (Some p) = Some p.
Proof. destruct p; [congruence | reflexivity]. Qed.

(** The audio part on a well-formed chunk: one source is created, connected
    to the gain node and started at the later of the cursor and the clock;
    the cursor moves by the duration of the buffer. *)
Lemma playAudio_scheduled s p buf t ctx g i :
  p <> EmptyString ->
  AudioUtils.decodeAudioData (decode p) 24000 1 = Normal buf ->
  outputAudioContextRef s = Some ctx ->
  outputGainRef s = Some g ->
  playAudio decode (mkMessage (Some p) i) t s
  = (Normal true,
     set_sourcesRef (set_add (nextHandle s) (sourcesRef s))
       (set_nextStartTimeRef
          (Qmax (nextStartTimeRef s) t + AudioUtils.duration buf)
          (set_calls
             (calls s ++
              [CreateBufferSource ctx (nextHandle s);
               NodeConnect (nextHandle s) g;
               SourceStart (nextHandle s) (Qmax (nextStartTimeRef s) t)])
             (set_nextHandle (Pos.succ (nextHandle s)) s)))).
Proof.
  intros Hp Hdec Hctx Hg.
  unfold playAudio. cbn [inlineData]. rewrite (truthy_nonempty Hp).
  destruct s as [st vol ictx octx ms pr isrc og an se nx srcs af cr nh cs].
  cbn [outputAudioContextRef outputGainRef] in Hctx, Hg. subst octx og.
  cbv -[AudioUtils.decodeAudioData AudioUtils.duration Qmax Qplus
        app set_add Pos.succ].
  rewrite Hdec.
  cbv -[AudioUtils.duration Qmax Qplus app set_add Pos.succ].
  rewrite <- !app_assoc. reflexivity.
Qed.

(** The audio part on a payload the decoder rejects: the cursor has already
    been raised when the decoder throws, and nothing else is written. *)
Lemma playAudio_rejected s p e t ctx i :
  p <> EmptyString ->
  AudioUtils.decodeAudioData (decode p) 24000 1 = Throw e ->
  outputAudioContextRef s = Some ctx ->
  playAudio decode (mkMessage (Some p) i) t s
  = (Throw e, set_nextStartTimeRef (Qmax (nextStartTimeRef s) t) s).
Proof.
  intros Hp Hdec Hctx.
  unfold playAudio. cbn [inlineData]. rewrite (truthy_nonempty Hp).
  destruct s as [st vol ictx octx ms pr isrc og an se nx srcs af cr nh cs].
  cbn [outputAudioContextRef] in Hctx. subst octx.
  cbv -[AudioUtils.decodeAudioData AudioUtils.duration Qmax Qplus
        app set_add Pos.succ].
  rewrite Hdec. reflexivity.
Qed.

Lemma playAudio_frame m t s :
  same_outside_scheduler s (snd (playAudio decode m t s)).
Proof.
  unfold playAudio.
  destruct (truthy (inlineData m)) as [p|];
    [|apply same_outside_scheduler_refl].
  destruct s as [st vol ictx octx ms pr isrc og an se nx srcs af cr nh cs].
  destruct octx as [ctx|]; [|apply same_outside_scheduler_refl].
  cbv -[AudioUtils.decodeAudioData AudioUtils.duration Qmax Qplus
        app set_add Pos.succ].
  destruct (AudioUtils.decodeAudioData (decode p) 24000 1) as [buf|e];
    [destruct og|]; cbv -[Qmax Qplus app set_add Pos.succ];
    repeat split; reflexivity.
Qed.

Lemma interrupt_frame s :
  same_outside_scheduler s (snd (interrupt stop_throws s)).
Proof.
  rewrite interrupt_run. destruct s. cbv -[app map].
  repeat split; reflexivity.
Qed.

Lemma onmessage_frame m t s :
  same_outside_scheduler s (exec (onmessage stop_throws decode m t) s).
Proof.
  unfold exec, onmessage, bind.
  pose proof (playAudio_frame m t s) as Hp.
  destruct (playAudio decode m t s) as [[c|e] s1]; cbn [snd] in *; auto.
  destruct (c && interrupted m); cbn [snd]; auto.
  eapply same_outside_scheduler_trans; [exact Hp | apply interrupt_frame].
Qed.

(** C6: handling a message that carries the interruption flag leaves the
    status at [connected] and changes no field of the session other than
    the in-flight set and the [nextStartTime] cursor. *)
Theorem interruption_is_not_a_transition (s : LiveSession)
  (m : LiveServerMessage) (t : Q) :
  interrupted m = true ->
  status s = connected ->
  let s' := exec (onmessage stop_throws decode m t) s in
  status s' = connected /\ same_outside_scheduler s s'.
Proof.
  intros _ Hst s'.
  pose proof (onmessage_frame m t s) as Hf. fold s' in Hf.
  split; [|exact Hf].
  destruct Hf as [Hs _]. congruence.
Qed.

(** ** Scheduling *)

Lemma duration_nonneg (b : AudioUtils.AudioBuffer) :
  0 <= AudioUtils.duration b.
Proof. unfold AudioUtils.duration, Qle. cbn. lia. Qed.

Lemma Qmax_zero_r (x : Q) : 0 <= x -> Qmax x 0 = x.
Proof.
  intro Hx. unfold Qmax, GenericMinMax.gmax.
  destruct (x ?= 0) eqn:E; try reflexivity.
  apply Qlt_alt in E. exfalso. exact (Qlt_not_le _ _ E Hx).
Qed.

Lemma start_times_app (a b : list Call) :
  start_times (a ++ b) = start_times a ++ start_times b.
Proof. unfold start_times. apply flat_map_app. Qed.

(** Every window of a timeline starts at or after the cursor it was
    computed from. *)
Lemma timeline_lower (timing : list (Q * Q)) :
  Forall (fun c => 0 <= fst c) timing ->
  forall next,
    Forall (fun w => next <= fst w)
      (combine (timeline next timing) (map fst timing)).
Proof.
  induction 1 as [|[d t] rest Hd _ IH]; intro next; cbn; constructor.
  - cbn. apply Q.le_max_l.
  - eapply Forall_impl; [|apply IH]. cbn. intros w Hw.
    cbn in Hd. apply Qle_trans with (Qmax next t + d); [|exact Hw].
    apply Qle_trans with (Qmax next t); [apply Q.le_max_l|].
    rewrite <- (Qplus_0_r (Qmax next t)) at 1.
    apply Qplus_le_r. exact Hd.
Qed.

Lemma timeline_non_overlapping (timing : list (Q * Q)) :
  Forall (fun c => 0 <= fst c) timing ->
  forall next,
    non_overlapping (combine (timeline next timing) (map fst timing)).
Proof.
  unfold non_overlapping.
  induction 1 as [|[d t] rest Hd Hrest IH]; intro next; cbn.
  - constructor.
  - constructor; [|apply IH].
    cbn. apply timeline_lower. exact Hrest.
Qed.

Lemma timeline_prefix_sums (timing : list (Q * Q)) :
  Forall (fun c => 0 <= fst c /\ snd c = 0) timing ->
  forall acc, 0 <= acc ->
    timeline acc timing = prefix_sums acc (map fst timing).
Proof.
  induction 1 as [|[d t] rest [Hd Ht] _ IH]; intros acc Hacc; cbn.
  - reflexivity.
  - cbn in Hd, Ht. subst t. rewrite (Qmax_zero_r Hacc).
    f_equal. apply IH.
    rewrite <- (Qplus_0_r 0). apply Qplus_le_compat; assumption.
Qed.

Lemma onmessage_scheduled s (c : Chunk) ctx g :
  decodes decode c ->
  outputAudioContextRef s = Some ctx ->
  outputGainRef s = Some g ->
  let start := Qmax (nextStartTimeRef s) (snd c) in
  let s' := exec (uncurry (onmessage stop_throws decode) (chunk_message c)) s
  in
  throws (uncurry (onmessage stop_throws decode) (chunk_message c)) s = false
  /\ calls s'
     = calls s ++
       [CreateBufferSource ctx (nextHandle s);
        NodeConnect (nextHandle s) g;
        SourceStart (nextHandle s) start]
  /\ nextStartTimeRef s' = start + AudioUtils.duration (snd (fst c))
  /\ sourcesRef s' = set_add (nextHandle s) (sourcesRef s)
  /\ outputAudioContextRef s' = Some ctx
  /\ outputGainRef s' = Some g.
Proof.
  destruct c as [[p buf] t]. intros [Hp Hdec] Hctx Hg. cbn in Hp, Hdec.
  unfold exec, throws, chunk_message, uncurry, onmessage, bind.
  cbn [fst snd].
  rewrite (playAudio_scheduled s t false Hp Hdec Hctx Hg).
  destruct s. cbn in Hctx, Hg. subst. cbv -[Qmax Qplus app set_add AudioUtils.duration].
  repeat split; reflexivity.
Qed.

Lemma run_messages_scheduled (ctx g : handle) (chunks : list Chunk) :
  Forall (decodes decode) chunks ->
  forall s,
    outputAudioContextRef s = Some ctx ->
    outputGainRef s = Some g ->
    let run := run_messages stop_throws decode (map chunk_message chunks) in
    let timing := map chunk_timing chunks in
    throws run s = false /\
    start_times (calls (exec run s))
    = start_times (calls s) ++ timeline (nextStartTimeRef s) timing /\
    nextStartTimeRef (exec run s)
    = timeline_end (nextStartTimeRef s) timing.
Proof.
  induction 1 as [|c rest Hc _ IH]; intros s Hctx Hg; cbv zeta.
  - cbn. rewrite app_nil_r. repeat split; reflexivity.
  - destruct (onmessage_scheduled s Hc Hctx Hg)
      as (Hthr & Hcalls & Hnext & _ & Hctx' & Hg').
    specialize (IH _ Hctx' Hg'). cbv zeta in IH.
    destruct IH as (IHthr & IHcalls & IHnext).
    destruct c as [[p buf] t].
    unfold exec, throws, chunk_message, uncurry in *.
    cbn [map run_messages fst snd chunk_timing timeline timeline_end] in *.
    unfold bind.
    destruct (onmessage stop_throws decode (mkMessage (Some p) false) t s)
      as [[[]|e] s1]; cbn [fst snd] in *; try discriminate.
    split; [exact IHthr|]. split.
    + rewrite IHcalls, Hcalls, start_times_app, Hnext. cbn.
      rewrite <- app_assoc. reflexivity.
    + rewrite IHnext, Hnext. reflexivity.
Qed.

(** C5: each scheduled buffer starts at the later of [nextStartTime] and
    the output clock, and [nextStartTime] then moves on by the duration of
    the buffer; the playback windows of a run of buffers do not overlap; and
    with the cursor and the output clock at 0, the start times are the
    cumulative sums 0, d1, d1 + d2, ... of the durations. *)
Theorem schedule_gapless (s : LiveSession) (ctx g : handle)
  (chunks : list Chunk) :
  outputAudioContextRef s = Some ctx ->
  outputGainRef s = Some g ->
  Forall (decodes decode) chunks ->
  let run := run_messages stop_throws decode (map chunk_message chunks) in
  let timing := map chunk_timing chunks in
  let starts := timeline (nextStartTimeRef s) timing in
  throws run s = false /\
  start_times (calls (exec run s)) = start_times (calls s) ++ starts /\
  nextStartTimeRef (exec run s) = timeline_end (nextStartTimeRef s) timing /\
  non_overlapping (combine starts (map fst timing)) /\
  (nextStartTimeRef s = 0 ->
   Forall (fun c : Chunk => snd c = 0) chunks ->
   starts = prefix_sums 0 (map fst timing)).
Proof.
  intros Hctx Hg Hdec. cbv zeta.
  assert (Hnonneg : Forall (fun c => 0 <= fst c) (map chunk_timing chunks)).
  { apply Forall_map. apply Forall_forall. intros c _.
    apply duration_nonneg. }
  destruct (run_messages_scheduled Hdec s Hctx Hg) as (Hthr & Hcalls & Hnext).
  split; [exact Hthr|]. split; [exact Hcalls|]. split; [exact Hnext|].
  split.
  - apply timeline_non_overlapping. exact Hnonneg.
  - intros H0 Hclock. rewrite H0. apply timeline_prefix_sums.
    + apply Forall_map. eapply Forall_impl; [|exact Hclock].
      intros c Hc. split; [apply duration_nonneg | exact Hc].
    + apply Qle_refl.
Qed.

(** ** Malformed payloads *)

Lemma decodeAudioData_rejects (data : list Z) (rate : positive)
  (numChannels : nat) :
  (List.length data mod (AudioUtils.sampleWidthBytes * numChannels) <> 0)%nat
  -> AudioUtils.decodeAudioData data rate numChannels = Throw RangeError.
Proof.
  intro H. unfold AudioUtils.decodeAudioData.
  apply Nat.eqb_neq in H. rewrite H. reflexivity.
Qed.

(** C8, as the code has it: decoding a payload whose byte length is not a
    whole multiple of the sample width times the channel count fails; the
    failure ends the handling of that one message, no source is created or
    started, the status stays [connected], and the session is as before
    except that the [nextStartTime] cursor has been raised to the later of
    its value and the output clock. *)
Theorem malformed_chunk_is_local (s : LiveSession) (p : string)
  (i : bool) (t : Q) (ctx : handle) :
  p <> EmptyString ->
  (List.length (decode p) mod (AudioUtils.sampleWidthBytes * 1) <> 0)%nat ->
  status s = connected ->
  outputAudioContextRef s = Some ctx ->
  let handled := onmessage stop_throws decode (mkMessage (Some p) i) t in
  AudioUtils.decodeAudioData (decode p) 24000 1 = Throw RangeError /\
  handled s
  = (Throw RangeError,
     set_nextStartTimeRef (Qmax (nextStartTimeRef s) t) s) /\
  status (exec handled s) = connected /\
  sourcesRef (exec handled s) = sourcesRef s /\
  calls (exec handled s) = calls s /\
  nextStartTimeRef s <= nextStartTimeRef (exec handled s).
Proof.
  intros Hp Hlen Hst Hctx handled.
  pose proof (decodeAudioData_rejects (decode p) 24000 1 Hlen) as Hdec.
  assert (Hrun : handled s
                 = (Throw RangeError,
                    set_nextStartTimeRef (Qmax (nextStartTimeRef s) t) s)).
  { unfold handled, onmessage, bind.
    rewrite (playAudio_rejected s t i Hp Hdec Hctx). reflexivity. }
  split; [exact Hdec|]. split; [exact Hrun|].
  unfold exec. rewrite Hrun. cbn [snd].
  destruct s; cbn in *. repeat split; try assumption; try reflexivity.
  apply Q.le_max_l.
Qed.

(** ** Connecting *)

Lemma setup_attempts_app (a b : list Call) :
  setup_attempts (a ++ b) = (setup_attempts a + setup_attempts b)%nat.
Proof. unfold setup_attempts. rewrite filter_app, length_app. reflexivity. Qed.

Lemma frame_requests_app (a b : list Call) :
  frame_requests (a ++ b) = frame_requests a ++ frame_requests b.
Proof. unfold frame_requests. apply flat_map_app. Qed.

(** The guard of line 106. *)
Lemma connect_guarded (rendered : LiveSessionStatus) (media : MediaResult)
  (cf : bool) (bins : list Z) (s : LiveSession) :
  rendered = connecting \/ rendered = connected ->
  connect stop_throws rendered media cf bins s = (Normal tt, s).
Proof. intros [-> | ->]; reflexivity. Qed.

(** The synchronous part of a [connect] call that passes the guard. *)
Lemma connect_setup_run (rendered : LiveSessionStatus) (s : LiveSession) :
  rendered <> connecting -> rendered <> connected ->
  let h := nextHandle s in
  let h1 := Pos.succ h in
  let h2 := Pos.succ h1 in
  let h3 := Pos.succ h2 in
  connect_setup rendered s
  = (Normal (Some (h, h1)),
     mkLiveSession connecting (volume s) (Some h) (Some h1)
       (mediaStreamRef s) (processorRef s) (inputSourceRef s) (Some h3)
       (Some h2) (sessionRef s) (nextStartTimeRef s) (sourcesRef s)
       (animationFrameRef s) (connectedRef s) (Pos.succ h3)
       (calls s ++
        [NewAudioContext h 16000; NewAudioContext h1 24000;
         CreateAnalyser h1 h2 256; CreateGain h1 h3; NodeConnect h3 h2;
         NodeConnectDestination h2 h1; GetUserMedia])).
Proof.
  intros Hc1 Hc2. destruct rendered; try congruence;
    destruct s; cbv -[app Pos.succ]; rewrite <- !app_assoc; reflexivity.
Qed.

(** The guard of line 106 for a call made from a later render: a [connect]
    whose closure has seen the status [connecting] or [connected] is
    ignored, changing nothing and issuing no platform call. *)
Theorem connect_twice_single_setup (s : LiveSession)
  (media : MediaResult) (cf : bool) (bins : list Z) :
  status s <> connecting ->
  status s <> connected ->
  let s1 := exec (connect_setup (status s)) s in
  let second := connect stop_throws (status s1) media cf bins in
  status s1 = connecting /\
  setup_attempts (calls s1) = S (setup_attempts (calls s)) /\
  second s1 = (Normal tt, s1) /\
  setup_attempts (calls (exec second s1)) = S (setup_attempts (calls s)) /\
  (forall s2, status s2 = connecting \/ status s2 = connected ->
     connect stop_throws (status s2) media cf bins s2 = (Normal tt, s2)).
Proof.
  intros Hc1 Hc2. cbv zeta. unfold exec.
  rewrite (connect_setup_run s Hc1 Hc2). cbn [snd status calls].
  assert (Hn : setup_attempts
                 (calls s ++
                  [NewAudioContext (nextHandle s) 16000;
                   NewAudioContext (Pos.succ (nextHandle s)) 24000;
                   CreateAnalyser (Pos.succ (nextHandle s))
                     (Pos.succ (Pos.succ (nextHandle s))) 256;
                   CreateGain (Pos.succ (nextHandle s))
                     (Pos.succ (Pos.succ (Pos.succ (nextHandle s))));
                   NodeConnect (Pos.succ (Pos.succ (Pos.succ (nextHandle s))))
                     (Pos.succ (Pos.succ (nextHandle s)));
                   NodeConnectDestination (Pos.succ (Pos.succ (nextHandle s)))
                     (Pos.succ (nextHandle s));
                   GetUserMedia])
               = S (setup_attempts (calls s))).
  { rewrite setup_attempts_app. cbn. lia. }
  split; [reflexivity|]. split; [exact Hn|]. split; [reflexivity|].
  split; [exact Hn|].
  intros s2 H2. apply connect_guarded. exact H2.
Qed.

(** Whatever the [try] block threw, the [catch] block leaves the status at
    [disconnected]: its [disconnect] runs after its [setStatus('error')]. *)
Lemma connect_catch_run (s : LiveSession) :
  connect_catch stop_throws s
  = (Normal tt, exec (disconnect stop_throws) s).
Proof.
  unfold connect_catch, bind, modify, exec.
  rewrite !disconnect_run. destruct s; reflexivity.
Qed.

(** The [onerror] callback writes the status after tearing down. *)
Lemma onerror_run (s : LiveSession) :
  onerror stop_throws s
  = (Normal tt, set_status error (exec (disconnect stop_throws) s)).
Proof.
  unfold onerror, bind, modify, exec. rewrite disconnect_run. reflexivity.
Qed.

(** A [connect] call that passes the guard and whose [try] block fails,
    the microphone being denied or the client failing, ends torn down with
    the status at [disconnected]. *)
Lemma connect_failed_run (rendered : LiveSessionStatus)
  (media : MediaResult) (cf : bool) (bins : list Z) (s : LiveSession) :
  rendered <> connecting -> rendered <> connected ->
  media = Denied \/ cf = true ->
  throws (connect stop_throws rendered media cf bins) s = false /\
  torn_down (exec (connect stop_throws rendered media cf bins) s).
Proof.
  intros Hc1 Hc2 Hfail.
  unfold throws, exec, connect, bind.
  rewrite (connect_setup_run s Hc1 Hc2). cbv zeta.
  unfold connect_resume, try_catch.
  destruct media.
  - destruct Hfail as [Hm | ->]; [discriminate|].
    destruct s; cbv -[connect_catch Pos.succ app].
    rewrite connect_catch_run. unfold exec. rewrite disconnect_run.
    cbn [fst snd]. split; [reflexivity|].
    unfold torn_down, released. cbn. tauto.
  - destruct s; cbv -[connect_catch Pos.succ app].
    rewrite connect_catch_run. unfold exec. rewrite disconnect_run.
    cbn [fst snd]. split; [reflexivity|].
    unfold torn_down, released. cbn. tauto.
Qed.

(** ** The volume meter *)

Lemma updateVolume_idle (bins : list Z) (s : LiveSession) :
  connectedRef s = false ->
  updateVolume bins s = (Normal tt, s).
Proof.
  intro H. destruct s. cbn in H. subst.
  unfold updateVolume, bind, read, is_set. cbn [analyzerRef connectedRef].
  rewrite andb_false_r. reflexivity.
Qed.

Lemma updateVolume_active (bins : list Z) (s : LiveSession) :
  connectedRef s = true ->
  bins <> [] ->
  updateVolume bins s
  = (Normal tt,
     set_animationFrameRef (Some (nextHandle s))
       (set_calls (calls s ++ [RequestAnimationFrame (nextHandle s)])
          (set_nextHandle (Pos.succ (nextHandle s))
             (set_volume
                (if is_set (analyzerRef s) then mean bins else volume s)
                s)))).
Proof.
  intros H Hb. destruct bins as [|b bins]; [congruence|].
  destruct s as [st vol ictx octx ms pr isrc og an se nx srcs af cr nh cs].
  cbn in H. subst cr.
  destruct an;
    cbv -[app Pos.succ Qdiv inject_Z fold_left Z.add List.length Z.of_nat];
    reflexivity.
Qed.

(** A whole [connect] call whose microphone request is granted and whose
    channel is created. *)
Lemma connect_granted_run (rendered : LiveSessionStatus) (bins : list Z)
  (s : LiveSession) :
  rendered <> connecting -> rendered <> connected ->
  bins <> [] ->
  let h := nextHandle s in
  let h1 := Pos.succ h in
  let h2 := Pos.succ h1 in
  let h3 := Pos.succ h2 in
  let h4 := Pos.succ h3 in
  let h5 := Pos.succ h4 in
  let h6 := Pos.succ h5 in
  connect stop_throws rendered Granted false bins s
  = (Normal tt,
     mkLiveSession connecting (mean bins) (Some h) (Some h1) (Some h4)
       (processorRef s) (inputSourceRef s) (Some h3) (Some h2)
       (Some (mkChannel h5 h h4)) (nextStartTimeRef s) (sourcesRef s)
       (Some h6) true (Pos.succ h6)
       (calls s ++
        [NewAudioContext h 16000; NewAudioContext h1 24000;
         CreateAnalyser h1 h2 256; CreateGain h1 h3; NodeConnect h3 h2;
         NodeConnectDestination h2 h1; GetUserMedia; LiveConnect h5;
         RequestAnimationFrame h6])).
Proof.
  intros Hc1 Hc2 Hb. cbv zeta.
  unfold connect. unfold bind at 1.
  rewrite (connect_setup_run s Hc1 Hc2). cbv zeta.
  destruct bins as [|b bins]; [congruence|].
  destruct s as [st vol ictx octx ms pr isrc og an se nx srcs af cr nh cs].
  cbv -[app Pos.succ Qdiv inject_Z fold_left Z.add List.length Z.of_nat].
  rewrite <- !app_assoc. reflexivity.
Qed.

Lemma onopen_run (ch : Channel) (s : LiveSession) :
  let h := nextHandle s in
  let h1 := Pos.succ h in
  onopen ch s
  = (Normal tt,
     set_calls
       (calls s ++
        [CreateMediaStreamSource (capturedInputCtx ch) (capturedStream ch) h;
         CreateScriptProcessor (capturedInputCtx ch) h1;
         SetOnAudioProcess h1 true; NodeConnect h h1;
         NodeConnectDestination h1 (capturedInputCtx ch)])
       (set_nextHandle (Pos.succ h1)
          (set_processorRef (Some h1)
             (set_inputSourceRef (Some h)
                (set_connectedRef true (set_status connected s)))))).
Proof.
  destruct s. cbv -[app Pos.succ]. rewrite <- !app_assoc. reflexivity.
Qed.

(** C2, as the code has it: the polling loop follows the flag
    [connectedRef], not the status.  A [connect] call sets the flag and runs
    the first tick at the end of its setup, while the status is still
    [connecting]; the [open] signal requests no frame; a tick publishes and
    requests the next frame only while the flag is set; [disconnect] clears
    the flag, cancels the pending frame and resets the volume to zero. *)
Theorem volume_polling_follows_flag (s : LiveSession)
  (rendered : LiveSessionStatus) (bins : list Z) :
  rendered <> connecting ->
  rendered <> connected ->
  bins <> [] ->
  let s1 := exec (connect stop_throws rendered Granted false bins) s in
  let s2 := exec (updateVolume bins) s in
  let s3 := exec (disconnect stop_throws) s in
  (status s1 = connecting /\ connectedRef s1 = true /\
   volume s1 = mean bins /\
   exists id,
     animationFrameRef s1 = Some id /\
     frame_requests (calls s1) = frame_requests (calls s) ++ [id]) /\
  (forall ch,
     status (exec (onopen ch) s1) = connected /\
     connectedRef (exec (onopen ch) s1) = true /\
     frame_requests (calls (exec (onopen ch) s1))
     = frame_requests (calls s1)) /\
  (connectedRef s = false -> updateVolume bins s = (Normal tt, s)) /\
  (connectedRef s = true ->
     animationFrameRef s2 = Some (nextHandle s) /\
     calls s2 = calls s ++ [RequestAnimationFrame (nextHandle s)] /\
     volume s2 = if is_set (analyzerRef s) then mean bins else volume s) /\
  (connectedRef s3 = false /\ volume s3 = 0 /\ animationFrameRef s3 = None /\
   calls s3 = calls s ++ teardown_calls s /\
   updateVolume bins s3 = (Normal tt, s3)).
Proof.
  intros Hc1 Hc2 Hb. cbv zeta. unfold exec.
  rewrite (connect_granted_run s Hc1 Hc2 Hb). cbv zeta. cbn [snd].
  split.
  { split; [reflexivity|]. split; [reflexivity|]. split; [reflexivity|].
    eexists. split; [reflexivity|].
    cbn [calls]. rewrite frame_requests_app. reflexivity. }
  split.
  { intro ch. rewrite onopen_run. cbv zeta. cbn [snd].
    split; [reflexivity|]. split; [reflexivity|].
    cbv -[app Pos.succ frame_requests]. rewrite frame_requests_app.
    cbn. rewrite app_nil_r. reflexivity. }
  split; [apply updateVolume_idle|].
  split.
  { intro Hc. rewrite (updateVolume_active s Hc Hb). destruct s.
    repeat split; reflexivity. }
  rewrite disconnect_run. cbn [snd].
  split; [reflexivity|]. split; [reflexivity|]. split; [reflexivity|].
  split; [reflexivity|].
  apply updateVolume_idle. reflexivity.
Qed.

End Callbacks.

(** ** Encoding and decoding PCM *)
Section Codec.

Import AudioUtils.

Local Open Scope Z_scope.

Lemma clamp16_range (n : Z) : -32768 <= clamp16 n <= 32767.
Proof. unfold clamp16. lia. Qed.

(** Writing a 16-bit integer as two bytes and reading them back. *)
Lemma int16_le_roundtrip (n : Z) (rest : list Z) :
  -32768 <= n <= 32767 ->
  int16_samples (le_of_int16 n ++ rest) = n :: int16_samples rest.
Proof.
  intro Hn. cbn [le_of_int16 app int16_samples]. f_equal.
  unfold int16_of_le.
  pose proof (Z.div_mod n 256 ltac:(lia)) as Hdm.
  pose proof (Z.mod_pos_bound n 256 ltac:(lia)) as Hlo.
  pose proof (Z.mod_pos_bound (n / 256) 256 ltac:(lia)) as Hhi.
  pose proof (Z.div_mod (n / 256) 256 ltac:(lia)) as Hdm2.
  assert (Hq : -128 <= n / 256 <= 127).
  { split.
    - apply Z.div_le_lower_bound; lia.
    - apply Z.lt_succ_r. apply Z.div_lt_upper_bound; lia. }
  assert (Hq2 : (n / 256) / 256 = 0 \/ (n / 256) / 256 = -1).
  { assert (-1 <= (n / 256) / 256 <= 0); [|lia]. split.
    - apply Z.div_le_lower_bound; lia.
    - apply Z.lt_succ_r. apply Z.div_lt_upper_bound; lia. }
  destruct (n mod 256 + 256 * ((n / 256) mod 256) <? 32768) eqn:E;
    [apply Z.ltb_lt in E | apply Z.ltb_ge in E]; lia.
Qed.

Lemma int16_samples_createBlob (toInteger : Q -> Z) (frame : list Q) :
  int16_samples (createBlob toInteger frame)
  = map (encodeSample toInteger) frame.
Proof.
  induction frame as [|x frame IH]; [reflexivity|].
  unfold createBlob in *. cbn [flat_map map].
  rewrite int16_le_roundtrip by apply clamp16_range.
  rewrite IH. reflexivity.
Qed.

Lemma length_createBlob (toInteger : Q -> Z) (frame : list Q) :
  List.length (createBlob toInteger frame) = (2 * List.length frame)%nat.
Proof.
  induction frame as [|x frame IH]; [reflexivity|].
  unfold createBlob in *. cbn [flat_map]. rewrite length_app, IH.
  cbn [le_of_int16 List.length]. lia.
Qed.

Lemma deinterleave_mono (flat : list Q) :
  deinterleave flat 1 (List.length flat) 0 = flat.
Proof.
  unfold deinterleave.
  apply nth_ext with (d := 0%Q) (d' := 0%Q).
  - rewrite length_map, length_seq. reflexivity.
  - intros n Hn. rewrite length_map, length_seq in Hn.
    rewrite (nth_indep _ _ (nth (0 * 1 + 0) flat 0%Q))
      by (rewrite length_map, length_seq; exact Hn).
    rewrite (map_nth (fun i => nth (i * 1 + 0) flat 0%Q)).
    rewrite seq_nth by exact Hn.
    f_equal. lia.
Qed.

(** What the decoder returns on what the encoder produced. *)
Lemma decode_createBlob (toInteger : Q -> Z) (frame : list Q)
  (rate : positive) :
  decodeAudioData (createBlob toInteger frame) rate 1
  = Normal (mkAudioBuffer rate (List.length frame)
              [map (fun x => normalize (encodeSample toInteger x)) frame]).
Proof.
  unfold decodeAudioData, sampleWidthBytes.
  rewrite length_createBlob, int16_samples_createBlob.
  change (2 * 1)%nat with 2%nat.
  replace (2 * List.length frame)%nat with (List.length frame * 2)%nat
    by lia.
  rewrite Nat.Div0.mod_mul, Nat.div_mul by lia.
  cbn [Nat.eqb seq map]. rewrite map_map. f_equal. f_equal. f_equal.
  rewrite <- (length_map (fun x => normalize (encodeSample toInteger x))).
  apply deinterleave_mono.
Qed.

Local Close Scope Z_scope.

(** Dropping the fraction moves a number by less than one. *)
Lemma truncate_close (x : Q) : Qabs (inject_Z (truncate x) - x) < 1.
Proof.
  destruct x as [a b]. unfold truncate. cbn [Qnum Qden].
  apply Qabs_Qlt_condition.
  pose proof (Z.quot_rem' a (Z.pos b)) as Hqr.
  pose proof (Z.rem_bound_abs a (Z.pos b) ltac:(lia)) as Hr.
  unfold Qlt, Qminus, Qplus, Qopp, inject_Z. cbn [Qnum Qden].
  split; nia.
Qed.

Section RoundTrip.

Variable toInteger : Q -> Z.

(** The conversion to an integer moves a number by less than one, as
    truncation, floor, ceiling and rounding to nearest all do. *)
Hypothesis toInteger_close :
  forall y : Q, Qabs (inject_Z (toInteger y) - y) < 1.

Lemma sample_roundtrip (x : Q) :
  -1 <= x <= 1 ->
  Qabs (normalize (encodeSample toInteger x) - x) <= 1 # 32768.
Proof.
  intros [Hlo Hhi]. unfold encodeSample, normalize.
  set (y := x * 32768).
  pose proof (toInteger_close y) as Hk.
  apply Qabs_Qlt_condition in Hk. destruct Hk as [Hk1 Hk2].
  set (k := toInteger y) in *.
  assert (Hy : -32768 <= y <= 32768) by (unfold y; split; lra).
  assert (Hn : -1 <= inject_Z (clamp16 k) - y <= 1).
  { unfold clamp16.
    destruct (Z_lt_le_dec 32767 k) as [Hbig|Hbig].
    - assert (Hk32 : k = 32768%Z).
      { assert (inject_Z k < inject_Z 32769) as Hlt.
        { change (inject_Z 32769) with 32769. lra. }
        rewrite <- Zlt_Qlt in Hlt. lia. }
      subst k. rewrite Hk32 in *.
      replace (Z.max (-32768) (Z.min 32767 32768)) with 32767%Z by lia.
      change (inject_Z 32767) with 32767.
      change (inject_Z 32768) with 32768 in Hk1, Hk2. split; lra.
    - destruct (Z_lt_le_dec k (-32768)) as [Hsmall|Hsmall].
      + exfalso.
        assert (inject_Z (-32769) < inject_Z k) as Hlt.
        { change (inject_Z (-32769)) with (-32769). lra. }
        rewrite <- Zlt_Qlt in Hlt. lia.
      + replace (Z.max (-32768) (Z.min 32767 k)) with k by lia.
        split; lra. }
  set (n := clamp16 k) in *.
  apply Qabs_Qle_condition.
  rewrite (Qmake_Qdiv n 32768).
  change (inject_Z (Z.pos 32768)) with 32768.
  unfold y in Hn. destruct Hn as [Hn1 Hn2].
  assert (He : inject_Z n / 32768 - x
               == (inject_Z n - x * 32768) * (1 # 32768)) by field.
  rewrite He. split; lra.
Qed.

(** C9: a frame of samples in [-1, 1], encoded to 16-bit signed
    little-endian bytes and decoded back as mono at any one sample rate,
    comes back with as many samples, each within 1/32768 of the original. *)
Theorem encode_decode_roundtrip (frame : list Q) (rate : positive) :
  Forall (fun x => -1 <= x <= 1) frame ->
  exists decoded,
    decodeAudioData (createBlob toInteger frame) rate 1
    = Normal (mkAudioBuffer rate (List.length frame) [decoded]) /\
    within_quantization frame decoded.
Proof.
  intro Hframe.
  exists (map (fun x => normalize (encodeSample toInteger x)) frame).
  split; [apply decode_createBlob|].
  unfold within_quantization.
  induction Hframe as [|x frame Hx _ IH]; cbn [map]; constructor.
  - apply sample_roundtrip. exact Hx.
  - exact IH.
Qed.

End RoundTrip.

End Codec.

(** ** The visualizer *)

(** C10, as the code has it: while inactive the visualizer renders the same
    styles whatever the volume: the outer pulse at scale 0.8 and opacity 0,
    the middle ring at opacity 0.3 and at scale 0.9, which is the computed
    scale 1 times the factor 0.9 of line 28, and the inner core at
    scale 1. *)
Theorem inactive_rendering_ignores_volume (v1 v2 : Q) :
  Visualizer.Visualizer v1 false = Visualizer.Visualizer v2 false /\
  Visualizer.scale v1 false = 1 /\
  Visualizer.opacity v1 false = 3 # 10 /\
  Visualizer.Visualizer v1 false
  = Visualizer.mkRendered (8 # 10) 0 (9 # 10) (3 # 10) 1 false.
Proof. repeat split. Qed.

(** At an inactive visualizer the middle ring is not drawn at scale 1. *)
Lemma inactive_middle_ring_scale :
  Visualizer.middleRingScale (Visualizer.Visualizer 0 false) == 9 # 10 /\
  ~ Visualizer.middleRingScale (Visualizer.Visualizer 0 false) == 1.
Proof. split; [reflexivity | discriminate]. Qed.

(** ** The callbacks on sample inputs *)

(** The scenario of section 8: connect, [open], one audio message, an
    interruption, [close]. *)
Example end_to_end_scenario :
  let interrupted_session :=
    exec (onmessage stop_never_throws byte_codes (mkMessage None true) 0)
      playing_session in
  let closed_session :=
    exec (onclose stop_never_throws) interrupted_session in
  status connecting_session = connecting /\
  status connected_session = connected /\
  start_times (calls playing_session) = [0] /\
  sourcesRef playing_session = [10%positive] /\
  sourcesRef interrupted_session = [] /\
  nextStartTimeRef interrupted_session = 0 /\
  status closed_session = disconnected /\
  volume closed_session = 0 /\
  released closed_session.
Proof. vm_compute. repeat split. Qed.

(** C1, on the code: when the microphone is denied during [connect], the
    [catch] block tears everything down and no device handle stays held,
    but the status it leaves is [disconnected], not [error]: [disconnect]
    runs after [setStatus('error')] and writes the status last.  The
    [onerror] callback, which writes the status after [disconnect], does
    end in [error]. *)
Theorem connect_denied_ends_disconnected :
  let s' :=
    exec (connect stop_never_throws disconnected Denied false sample_bins)
      initialSession in
  status s' = disconnected /\
  released s' /\
  calls s'
  = [NewAudioContext 1 16000; NewAudioContext 2 24000;
     CreateAnalyser 2 3 256; CreateGain 2 4; NodeConnect 4 3;
     NodeConnectDestination 3 2; GetUserMedia; ContextClose 1;
     ContextClose 2] /\
  status (exec (onerror stop_never_throws) connected_session) = error.
Proof. vm_compute. repeat split. Qed.

(** C3, on the code: the guard of line 106 reads the [status] its closure
    was rendered with, not the status the first call has just set.  Two
    [connect] calls in a row from one render of a disconnected session both
    pass it: the microphone is requested twice and two pairs of audio
    contexts are created, the second pair replacing the first in the refs,
    so that a later [disconnect] closes only the second pair. *)
Theorem connect_twice_same_render_two_setups :
  let s1 := exec (connect_setup disconnected) initialSession in
  let s2 := exec (connect_setup disconnected) s1 in
  status s1 = connecting /\
  setup_attempts (calls s1) = 1%nat /\
  setup_attempts (calls s2) = 2%nat /\
  inputAudioContextRef s1 = Some 1%positive /\
  outputAudioContextRef s1 = Some 2%positive /\
  inputAudioContextRef s2 = Some 5%positive /\
  outputAudioContextRef s2 = Some 6%positive /\
  calls (exec (disconnect stop_never_throws) s2)
  = calls s2 ++ [ContextClose 5; ContextClose 6].
Proof. vm_compute. repeat split. Qed.

(** After a granted [connect] and before any [open], the status is
    [connecting], yet a frame has been requested and a volume published;
    the [open] signal then requests no further frame. *)
Lemma polling_starts_before_open :
  status connecting_session = connecting /\
  frame_requests (calls connecting_session) = [7%positive] /\
  animationFrameRef connecting_session = Some 7%positive /\
  volume connecting_session == 25 /\
  status connected_session = connected /\
  frame_requests (calls connected_session) = [7%positive].
Proof. vm_compute. repeat split; discriminate. Qed.

(** A payload of three bytes arriving at clock 1 on a connected session
    whose cursor is at 0 is rejected, and the cursor is at 1 afterwards. *)
Lemma malformed_chunk_moves_cursor :
  let handled :=
    onmessage stop_never_throws byte_codes malformed_message 1 in
  status connected_session = connected /\
  (List.length (byte_codes "abc") mod (AudioUtils.sampleWidthBytes * 1)
   <> 0)%nat /\
  throws handled connected_session = true /\
  nextStartTimeRef connected_session == 0 /\
  nextStartTimeRef (exec handled connected_session) == 1 /\
  exec handled connected_session <> connected_session.
Proof.
  vm_compute. repeat split; try discriminate.
Qed.

(** [disconnect] on the freshly mounted hook, which is torn down. *)
Lemma disconnect_idempotent_total_witness :
  torn_down initialSession /\
  disconnect stop_never_throws initialSession = (Normal tt, initialSession).
Proof.
  assert (H : torn_down initialSession)
    by (unfold torn_down, released; cbn; repeat split; reflexivity).
  split; [exact H|].
  destruct (disconnect_idempotent_total stop_never_throws initialSession)
    as (_ & _ & _ & _ & _ & Hnoop).
  exact (Hnoop H).
Defined.

(** An interruption arriving while one chunk is in flight. *)
Lemma interruption_is_not_a_transition_witness :
  interrupted (mkMessage None true) = true /\
  status playing_session = connected /\
  sourcesRef playing_session = [10%positive] /\
  let s' :=
    exec (onmessage stop_never_throws byte_codes (mkMessage None true) 1)
      playing_session in
  status s' = connected /\ same_outside_scheduler playing_session s'.
Proof.
  split; [reflexivity|]. split; [reflexivity|]. split; [reflexivity|].
  apply (interruption_is_not_a_transition stop_never_throws byte_codes
           playing_session (mkMessage None true) 1); reflexivity.
Defined.

(** Two chunks scheduled on the connected session start at 0 and at the
    duration of the first. *)
Lemma schedule_gapless_witness :
  outputAudioContextRef connected_session = Some 2%positive /\
  outputGainRef connected_session = Some 4%positive /\
  Forall (decodes byte_codes) sample_chunks /\
  start_times
    (calls
       (exec
          (run_messages stop_never_throws byte_codes
             (map chunk_message sample_chunks))
          connected_session))
  = [0; 0 + (2 # 24000)].
Proof.
  assert (Hd : Forall (decodes byte_codes) sample_chunks).
  { repeat constructor; cbn; discriminate. }
  split; [reflexivity|]. split; [reflexivity|]. split; [exact Hd|].
  destruct (@schedule_gapless stop_never_throws byte_codes
              connected_session 2 4 sample_chunks eq_refl eq_refl Hd)
    as (_ & Hstarts & _ & _ & Hsums).
  rewrite Hstarts. rewrite Hsums.
  - reflexivity.
  - reflexivity.
  - repeat constructor.
Defined.

(** The three-byte payload of [malformed_message] at clock 1. *)
Lemma malformed_chunk_is_local_witness :
  "abc"%string <> EmptyString /\
  (List.length (byte_codes "abc") mod (AudioUtils.sampleWidthBytes * 1)
   <> 0)%nat /\
  status connected_session = connected /\
  outputAudioContextRef connected_session = Some 2%positive /\
  onmessage stop_never_throws byte_codes malformed_message 1
    connected_session
  = (Throw RangeError,
     set_nextStartTimeRef (Qmax (nextStartTimeRef connected_session) 1)
       connected_session).
Proof.
  assert (Hp : "abc"%string <> EmptyString) by discriminate.
  assert (Hl : (List.length (byte_codes "abc")
                mod (AudioUtils.sampleWidthBytes * 1) <> 0)%nat)
    by (cbn; discriminate).
  split; [exact Hp|]. split; [exact Hl|].
  split; [reflexivity|]. split; [reflexivity|].
  destruct (@malformed_chunk_is_local stop_never_throws byte_codes
              connected_session "abc" false 1 2 Hp Hl eq_refl eq_refl)
    as (_ & Hrun & _).
  exact Hrun.
Defined.

(** A first [connect] on the freshly mounted hook, then a second. *)
Lemma connect_twice_single_setup_witness :
  status initialSession <> connecting /\
  status initialSession <> connected /\
  let s1 := exec (connect_setup (status initialSession)) initialSession in
  setup_attempts
    (calls
       (exec (connect stop_never_throws (status s1) Granted false sample_bins)
          s1))
  = 1%nat.
Proof.
  assert (H1 : status initialSession <> connecting) by discriminate.
  assert (H2 : status initialSession <> connected) by discriminate.
  split; [exact H1|]. split; [exact H2|].
  destruct (connect_twice_single_setup stop_never_throws initialSession
              Granted false sample_bins H1 H2)
    as (_ & _ & _ & Hone & _).
  exact Hone.
Defined.

(** [connect] on the freshly mounted hook with four bins. *)
Lemma volume_polling_follows_flag_witness :
  disconnected <> connecting /\
  disconnected <> connected /\
  sample_bins <> [] /\
  status connecting_session = connecting /\
  connectedRef connecting_session = true /\
  updateVolume sample_bins initialSession = (Normal tt, initialSession).
Proof.
  assert (H1 : disconnected <> connecting) by discriminate.
  assert (H2 : disconnected <> connected) by discriminate.
  assert (H3 : sample_bins <> []) by discriminate.
  split; [exact H1|]. split; [exact H2|]. split; [exact H3|].
  destruct (@volume_polling_follows_flag stop_never_throws initialSession
              disconnected sample_bins H1 H2 H3)
    as ((Hst & Hflag & _ & _) & _ & Hidle & _).
  split; [exact Hst|]. split; [exact Hflag|].
  apply Hidle. reflexivity.
Defined.

(** The round trip of [sample_frame] under truncation. *)
Lemma encode_decode_roundtrip_witness :
  (forall y : Q, Qabs (inject_Z (AudioUtils.truncate y) - y) < 1) /\
  Forall (fun x => -1 <= x <= 1) sample_frame /\
  exists decoded,
    AudioUtils.decodeAudioData
      (AudioUtils.createBlob AudioUtils.truncate sample_frame) 16000 1
    = Normal (AudioUtils.mkAudioBuffer 16000 4 [decoded]) /\
    within_quantization sample_frame decoded.
Proof.
  assert (Hf : Forall (fun x => -1 <= x <= 1) sample_frame).
  { repeat constructor; discriminate. }
  split; [exact truncate_close|]. split; [exact Hf|].
  exact (@encode_decode_roundtrip AudioUtils.truncate truncate_close
           sample_frame 16000 Hf).
Defined.

(** ** Further behaviour of the callbacks *)
Section Behaviour.

Variable stop_throws : handle -> bool.
Variable decode : string -> list Z.

(** [onerror] never raises and leaves a session that is torn down in every
    respect but the status, which is [error]; it issues the release call of
    each handle that was held. *)
Theorem onerror_tears_down_then_error (s : LiveSession) :
  let s' := exec (onerror stop_throws) s in
  throws (onerror stop_throws) s = false /\
  status s' = error /\
  volume s' = 0 /\
  connectedRef s' = false /\
  released s' /\
  calls s' = calls s ++ teardown_calls s.
Proof.
  unfold exec, throws. rewrite onerror_run. unfold exec.
  rewrite disconnect_run. cbn [fst snd].
  unfold released. cbv -[app teardown_calls]. tauto.
Qed.

(** A [close] event that follows an [error] event replaces the status
    [error] by [disconnected]; nothing else changes and no call is
    issued. *)
Theorem close_after_error_clears_error (s : LiveSession) :
  let s1 := exec (onerror stop_throws) s in
  onclose stop_throws s1 = (Normal tt, set_status disconnected s1) /\
  status (exec (onclose stop_throws) s1) = disconnected.
Proof.
  unfold exec, onclose. rewrite onerror_run. unfold exec.
  rewrite !disconnect_run. cbn [fst snd].
  cbv -[app teardown_calls]. rewrite app_nil_r. split; reflexivity.
Qed.

(** Once a session is torn down, a message of any kind is handled without
    raising, issues no platform call and leaves the session torn down: no
    audio is scheduled after the session has ended. *)
Theorem message_after_teardown_is_inert (s : LiveSession)
  (m : LiveServerMessage) (t : Q) :
  let s1 := exec (disconnect stop_throws) s in
  let s2 := exec (onmessage stop_throws decode m t) s1 in
  throws (onmessage stop_throws decode m t) s1 = false /\
  torn_down s2 /\
  calls s2 = calls s1 /\
  nextHandle s2 = nextHandle s1.
Proof.
  unfold exec, throws. rewrite disconnect_run. cbn [snd].
  destruct m as [[[|a p]|] [|]];
    cbv -[app teardown_calls]; rewrite ?app_nil_r;
    unfold torn_down, released; cbn; tauto.
Qed.

(** Line 173: while there is no output context, a message that carries
    audio is dropped whole, its interruption flag included: the in-flight
    sources are not stopped and the cursor is not reset. *)
Theorem audio_without_context_skips_interruption (s : LiveSession)
  (p : string) (i : bool) (t : Q) :
  p <> EmptyString ->
  outputAudioContextRef s = None ->
  onmessage stop_throws decode (mkMessage (Some p) i) t s = (Normal tt, s).
Proof.
  intros Hp Hctx. unfold onmessage, playAudio, bind, read.
  cbn [inlineData]. rewrite (truthy_nonempty Hp), Hctx. reflexivity.
Qed.

(** Line 171: an empty payload counts as no audio.  Nothing is scheduled,
    and the interruption flag of the message is honoured as for a message
    without payload. *)
Theorem empty_payload_is_no_audio (s : LiveSession) (i : bool) (t : Q) :
  onmessage stop_throws decode (mkMessage (Some EmptyString) i) t s
  = onmessage stop_throws decode (mkMessage None i) t s /\
  onmessage stop_throws decode (mkMessage (Some EmptyString) i) t s
  = (if i then interrupt stop_throws s else (Normal tt, s)).
Proof. destruct i; split; reflexivity. Qed.

(** *** The cursor and the in-flight set *)

Lemma playAudio_cursor_le (m : LiveServerMessage) (t : Q)
  (s : LiveSession) :
  nextStartTimeRef s <= nextStartTimeRef (snd (playAudio decode m t s)).
Proof.
  unfold playAudio.
  destruct (truthy (inlineData m)) as [p|]; [|apply Qle_refl].
  destruct s as [st vol ictx octx ms pr isrc og an se nx srcs af cr nh cs].
  destruct octx as [ctx|]; [|apply Qle_refl].
  cbv -[AudioUtils.decodeAudioData AudioUtils.duration Qmax Qplus Qle
        app set_add Pos.succ].
  destruct (AudioUtils.decodeAudioData (decode p) 24000 1) as [buf|e];
    [destruct og|];
    cbv -[AudioUtils.duration Qmax Qplus Qle app set_add Pos.succ];
    try apply Q.le_max_l.
  apply Qle_trans with (Qmax nx t); [apply Q.le_max_l|].
  rewrite <- (Qplus_0_r (Qmax nx t)) at 1.
  apply Qplus_le_r. apply duration_nonneg.
Qed.

(** Handling a message that does not carry the interruption flag never
    moves the [nextStartTime] cursor backwards, whatever the message, the
    session and the output clock. *)
Theorem cursor_never_moves_back (s : LiveSession) (m : LiveServerMessage)
  (t : Q) :
  interrupted m = false ->
  nextStartTimeRef s
  <= nextStartTimeRef (exec (onmessage stop_throws decode m t) s).
Proof.
  intro Hi. unfold exec, onmessage, bind. rewrite Hi.
  pose proof (playAudio_cursor_le m t s) as H.
  destruct (playAudio decode m t s) as [[c|e] s1]; cbn [snd] in *;
    [rewrite andb_false_r|]; exact H.
Qed.

(** A message that carries both a well-formed chunk and the interruption
    flag schedules the chunk and stops it in the same breath: the new
    source is started, then every in-flight source, the new one included,
    is stopped, the set ends empty and the cursor at zero. *)
Theorem chunk_with_interruption_is_stopped (s : LiveSession) (p : string)
  (buf : AudioUtils.AudioBuffer) (t : Q) (ctx g : handle) :
  p <> EmptyString ->
  AudioUtils.decodeAudioData (decode p) 24000 1 = Normal buf ->
  outputAudioContextRef s = Some ctx ->
  outputGainRef s = Some g ->
  let s' :=
    exec (onmessage stop_throws decode (mkMessage (Some p) true) t) s in
  throws (onmessage stop_throws decode (mkMessage (Some p) true) t) s
  = false /\
  calls s'
  = calls s ++
    [CreateBufferSource ctx (nextHandle s); NodeConnect (nextHandle s) g;
     SourceStart (nextHandle s) (Qmax (nextStartTimeRef s) t)] ++
    map SourceStop (set_add (nextHandle s) (sourcesRef s)) /\
  sourcesRef s' = [] /\
  nextStartTimeRef s' = 0.
Proof.
  intros Hp Hdec Hctx Hg.
  unfold exec, throws, onmessage, bind.
  rewrite (@playAudio_scheduled decode s p buf t ctx g true Hp Hdec Hctx Hg).
  cbn [andb interrupted]. rewrite interrupt_run. cbn [fst snd].
  destruct s. cbv -[Qmax Qplus app map set_add AudioUtils.duration Pos.succ].
  rewrite <- app_assoc. repeat split; reflexivity.
Qed.

(** Barge-in: the first chunk scheduled after an interruption starts at the
    output clock of its arrival, not after what had been queued, and the
    cursor then stands at that clock plus the duration of the chunk. *)
Theorem chunk_after_interruption_starts_at_clock (s : LiveSession)
  (c : Chunk) (ctx g : handle) :
  decodes decode c ->
  outputAudioContextRef s = Some ctx ->
  outputGainRef s = Some g ->
  0 <= snd c ->
  let s1 := exec (interrupt stop_throws) s in
  let s2 :=
    exec (uncurry (onmessage stop_throws decode) (chunk_message c)) s1 in
  exists start,
    start == snd c /\
    calls s2
    = calls s1 ++
      [CreateBufferSource ctx (nextHandle s); NodeConnect (nextHandle s) g;
       SourceStart (nextHandle s) start] /\
    nextStartTimeRef s2 = start + AudioUtils.duration (snd (fst c)) /\
    sourcesRef s2 = [nextHandle s].
Proof.
  intros Hc Hctx Hg Ht. cbv zeta.
  assert (H1 : exec (interrupt stop_throws) s
               = set_nextStartTimeRef 0
                   (set_sourcesRef []
                      (set_calls
                         (calls s ++ map SourceStop (sourcesRef s)) s)))
    by (unfold exec; rewrite interrupt_run; reflexivity).
  set (s1 := exec (interrupt stop_throws) s) in *.
  assert (Hctx1 : outputAudioContextRef s1 = Some ctx)
    by (rewrite H1; destruct s; exact Hctx).
  assert (Hg1 : outputGainRef s1 = Some g)
    by (rewrite H1; destruct s; exact Hg).
  assert (Hnh : nextHandle s1 = nextHandle s)
    by (rewrite H1; destruct s; reflexivity).
  assert (Hnx : nextStartTimeRef s1 = 0)
    by (rewrite H1; destruct s; reflexivity).
  assert (Hsrc1 : sourcesRef s1 = [])
    by (rewrite H1; destruct s; reflexivity).
  destruct (@onmessage_scheduled stop_throws decode s1 c ctx g Hc Hctx1 Hg1)
    as (_ & Hcalls & Hnext & Hsrc & _).
  rewrite Hcalls, Hnext, Hsrc, Hnh, Hnx, Hsrc1.
  exists (Qmax 0 (snd c)).
  split; [apply Q.max_r; exact Ht|].
  repeat split; reflexivity.
Qed.

Lemma existsb_eqb_false (h : handle) (l : list handle) :
  ~ In h l -> existsb (Pos.eqb h) l = false.
Proof.
  intro Hn. induction l as [|x l IH]; [reflexivity|].
  cbn. destruct (Pos.eqb_spec h x) as [->|Hx].
  - exfalso. apply Hn. left. reflexivity.
  - apply IH. intro Hin. apply Hn. right. exact Hin.
Qed.

Lemma existsb_eqb_true (h : handle) (l : list handle) :
  In h l -> existsb (Pos.eqb h) l = true.
Proof.
  intro Hin. apply existsb_exists. exists h.
  split; [exact Hin | apply Pos.eqb_refl].
Qed.

Lemma set_add_fresh (h : handle) (l : list handle) :
  ~ In h l -> set_add h l = l ++ [h].
Proof.
  intro Hn. unfold set_add. rewrite existsb_eqb_false by exact Hn.
  reflexivity.
Qed.

Lemma In_set_delete (h x : handle) (l : list handle) :
  In x (set_delete h l) <-> In x l /\ x <> h.
Proof.
  clear stop_throws decode.
  unfold set_delete. rewrite filter_In.
  destruct (Pos.eqb_spec h x) as [->|Hx]; cbn; intuition congruence.
Qed.

Lemma set_delete_absent (h : handle) (l : list handle) :
  ~ In h l -> set_delete h l = l.
Proof.
  intro Hn. unfold set_delete. induction l as [|x l IH]; [reflexivity|].
  cbn [filter]. destruct (Pos.eqb_spec h x) as [->|Hx].
  - exfalso. apply Hn. left. reflexivity.
  - cbn [negb]. rewrite IH; [reflexivity|].
    intro Hin. apply Hn. right. exact Hin.
Qed.

Lemma set_delete_added (h : handle) (l : list handle) :
  ~ In h l -> set_delete h (set_add h l) = l.
Proof.
  intro Hn. rewrite set_add_fresh by exact Hn. unfold set_delete.
  induction l as [|x l IH]; cbn [app filter].
  - rewrite Pos.eqb_refl. reflexivity.
  - destruct (Pos.eqb_spec h x) as [->|Hx].
    + exfalso. apply Hn. left. reflexivity.
    + cbn [negb]. rewrite IH; [reflexivity|].
      intro Hin. apply Hn. right. exact Hin.
Qed.

Lemma set_sourcesRef_same (s : LiveSession) :
  set_sourcesRef (sourcesRef s) s = s.
Proof. destruct s; reflexivity. Qed.

(** The [ended] listener takes its source, and only its source, out of the
    in-flight set, keeps the others in order, and touches nothing else; for
    a source that is no longer in the set (stopped by an interruption or a
    teardown before its event arrives) it changes nothing. *)
Theorem onended_removes_its_source (s : LiveSession) (h : handle) :
  let s' := exec (onended h) s in
  ~ In h (sourcesRef s') /\
  (forall x, x <> h -> (In x (sourcesRef s') <-> In x (sourcesRef s))) /\
  sourcesRef s' = filter (fun x => negb (Pos.eqb h x)) (sourcesRef s) /\
  s' = set_sourcesRef (sourcesRef s') s /\
  (~ In h (sourcesRef s) -> onended h s = (Normal tt, s)).
Proof.
  clear stop_throws decode.
  unfold exec, onended, modify. cbn [snd].
  assert (Hs : sourcesRef (set_sourcesRef (set_delete h (sourcesRef s)) s)
               = set_delete h (sourcesRef s)) by (destruct s; reflexivity).
  rewrite Hs.
  split; [rewrite In_set_delete; tauto|].
  split; [intros x Hx; rewrite In_set_delete; tauto|].
  split; [reflexivity|]. split; [reflexivity|].
  intro Hn. rewrite set_delete_absent by exact Hn.
  rewrite set_sourcesRef_same. reflexivity.
Qed.

(** Scheduling a chunk and then receiving the [ended] event of its source
    gives back the in-flight set as it was, provided the set holds only
    sources created earlier. *)
Theorem schedule_then_ended_restores_inflight (s : LiveSession) (c : Chunk)
  (ctx g : handle) :
  decodes decode c ->
  outputAudioContextRef s = Some ctx ->
  outputGainRef s = Some g ->
  Forall (fun h => (h < nextHandle s)%positive) (sourcesRef s) ->
  let s1 :=
    exec (uncurry (onmessage stop_throws decode) (chunk_message c)) s in
  sourcesRef s1 = sourcesRef s ++ [nextHandle s] /\
  sourcesRef (exec (onended (nextHandle s)) s1) = sourcesRef s.
Proof.
  intros Hc Hctx Hg Hfresh. cbv zeta.
  assert (Hn : ~ In (nextHandle s) (sourcesRef s)).
  { intro Hin. rewrite Forall_forall in Hfresh.
    specialize (Hfresh _ Hin). lia. }
  destruct (@onmessage_scheduled stop_throws decode s c ctx g Hc Hctx Hg)
    as (_ & _ & _ & Hsrc & _).
  split; [rewrite Hsrc; apply set_add_fresh; exact Hn|].
  unfold exec at 1. unfold onended, modify. cbn [snd].
  set (s1 := exec _ s) in *.
  replace (sourcesRef (set_sourcesRef
                         (set_delete (nextHandle s) (sourcesRef s1)) s1))
    with (set_delete (nextHandle s) (sourcesRef s1))
    by (destruct s1; reflexivity).
  rewrite Hsrc. apply set_delete_added. exact Hn.
Qed.

(** *** What the callbacks keep true *)

(** A property every callback keeps is kept by every run of callbacks. *)
Lemma run_callbacks_keeps (P : LiveSession -> Prop)
  (Q : Callback -> Prop) :
  (forall c s, Q c -> P s -> P (exec (invoke stop_throws decode c) s)) ->
  forall cs s,
    Forall Q cs -> P s -> P (run_callbacks stop_throws decode cs s).
Proof.
  intros Hstep cs. unfold run_callbacks.
  induction cs as [|c cs IH]; intros s Hq Hs; [exact Hs|].
  cbn [fold_left]. inversion Hq; subst.
  apply IH; [assumption|]. apply Hstep; assumption.
Qed.

(** The tick of the volume meter when [reduce] finds the array of bins
    empty: it throws before anything is written. *)
Lemma updateVolume_empty (s : LiveSession) :
  connectedRef s = true ->
  analyzerRef s <> None ->
  updateVolume [] s = (Throw TypeError, s).
Proof.
  intros Hc Ha.
  destruct s as [st vol ictx octx ms pr isrc og an se nx srcs af cr nh cs].
  cbn in Hc, Ha. subst cr. destruct an; [reflexivity | congruence].
Qed.

(** Evaluates the left-hand side up to the [catch] block it runs into. *)
Ltac caught :=
  lazymatch goal with
  | |- ?lhs = _ =>
      let l := eval cbv -[connect_catch Pos.succ app] in lhs in
      change lhs with l
  end;
  rewrite connect_catch_run; reflexivity.

(** How the continuation of [connect] ends: either its [catch] block tears
    the session down, or it has stored the stream and the channel, set the
    flag and run the first tick. *)
Lemma connect_resume_outcome (inputCtx : handle) (media : MediaResult)
  (cf : bool) (bins : list Z) (s : LiveSession) :
  (exists s0,
     connect_resume stop_throws inputCtx media cf bins s
     = (Normal tt, exec (disconnect stop_throws) s0) /\
     nextStartTimeRef s0 = nextStartTimeRef s) \/
  (let h := nextHandle s in
   let h1 := Pos.succ h in
   let h2 := Pos.succ h1 in
   (analyzerRef s = None \/ bins <> []) /\
   connect_resume stop_throws inputCtx media cf bins s
   = (Normal tt,
      mkLiveSession (status s)
        (if is_set (analyzerRef s) then mean bins else volume s)
        (inputAudioContextRef s) (outputAudioContextRef s) (Some h)
        (processorRef s) (inputSourceRef s) (outputGainRef s)
        (analyzerRef s) (Some (mkChannel h1 inputCtx h))
        (nextStartTimeRef s) (sourcesRef s) (Some h2) true (Pos.succ h2)
        (calls s ++ [LiveConnect h1; RequestAnimationFrame h2]))).
Proof.
  destruct s as [st vol ictx octx ms pr isrc og an se nx srcs af cr nh cs].
  unfold connect_resume, try_catch.
  destruct media; [destruct cf|].
  - left. eexists. split; [caught|reflexivity].
  - destruct an as [a|]; [destruct bins as [|b bins]|].
    + left. eexists. split; [caught|reflexivity].
    + right. cbv zeta. split; [right; discriminate|].
      cbv -[app Pos.succ Qdiv inject_Z fold_left Z.add List.length Z.of_nat].
      rewrite <- !app_assoc. reflexivity.
    + right. cbv zeta. split; [left; reflexivity|].
      cbv -[app Pos.succ Qdiv inject_Z fold_left Z.add List.length Z.of_nat].
      rewrite <- !app_assoc. reflexivity.
  - left. eexists. split; [caught|reflexivity].
Qed.

Lemma disconnect_refs_consistent (s : LiveSession) :
  refs_consistent (exec (disconnect stop_throws) s).
Proof.
  unfold exec. rewrite disconnect_run. unfold refs_consistent. cbn.
  repeat split; congruence.
Qed.

Lemma invoke_refs_consistent (c : Callback) (s : LiveSession) :
  refs_consistent s ->
  refs_consistent (exec (invoke stop_throws decode c) s).
Proof.
  intro H. destruct c as [r|ic media cf bins|ch|m t|h| | |bins| | ];
    cbn [invoke].
  - (* connect called *)
    unfold exec, bind.
    destruct r; try exact H.
    + rewrite connect_setup_run by discriminate.
      destruct s; unfold refs_consistent in *; cbn in *.
      repeat split; try tauto; try congruence.
    + rewrite connect_setup_run by discriminate.
      destruct s; unfold refs_consistent in *; cbn in *.
      repeat split; try tauto; try congruence.
  - (* the microphone request settles *)
    unfold exec.
    destruct (connect_resume_outcome ic media cf bins s)
      as [(s0 & -> & _) | (_ & ->)]; cbn [snd].
    + apply disconnect_refs_consistent.
    + destruct s; unfold refs_consistent in *; cbn in *.
      repeat split; tauto.
  - (* open *)
    unfold exec. rewrite onopen_run. cbv zeta. cbn [snd].
    destruct s; unfold refs_consistent in *; cbn in *.
    repeat split; tauto.
  - (* message *)
    pose proof (onmessage_frame stop_throws decode m t s) as Hf.
    unfold same_outside_scheduler in Hf. decompose [and] Hf.
    unfold refs_consistent in *. congruence.
  - (* ended *)
    destruct s; exact H.
  - apply disconnect_refs_consistent.
  - unfold exec. rewrite onerror_run. cbn [snd].
    pose proof (disconnect_refs_consistent s) as Hd.
    unfold exec in *. rewrite disconnect_run in *.
    unfold refs_consistent in *; cbn in *.
    repeat split; try tauto; congruence.
  - (* animation frame *)
    unfold exec.
    destruct (connectedRef s) eqn:Hc.
    + destruct bins as [|b bins].
      * destruct (analyzerRef s) eqn:Ha.
        -- rewrite updateVolume_empty by congruence. exact H.
        -- destruct s; cbn in Hc, Ha; subst.
           unfold refs_consistent in *; cbn in *.
           repeat split; tauto.
      * rewrite updateVolume_active by (try assumption; discriminate).
        destruct s; cbn in Hc; subst.
        unfold refs_consistent in *; cbn in *.
        repeat split; tauto.
    + rewrite updateVolume_idle by assumption. exact H.
  - apply disconnect_refs_consistent.
  - apply disconnect_refs_consistent.
Qed.

Lemma inflight_fresh_grow (s s' : LiveSession) :
  sourcesRef s' = sourcesRef s ->
  (nextHandle s <= nextHandle s')%positive ->
  inflight_fresh s -> inflight_fresh s'.
Proof.
  unfold inflight_fresh. intros -> Hle [Hnd Hlt]. split; [exact Hnd|].
  eapply Forall_impl; [|exact Hlt]. cbn. intros h Hh. lia.
Qed.

Lemma inflight_fresh_empty (s : LiveSession) :
  sourcesRef s = [] -> inflight_fresh s.
Proof. unfold inflight_fresh. intros ->. split; constructor. Qed.

Lemma NoDup_snoc (h : handle) (l : list handle) :
  NoDup l -> ~ In h l -> NoDup (l ++ [h]).
Proof.
  induction 1 as [|x l Hx Hnd IH]; intro Hn; cbn.
  - constructor; [intros []|constructor].
  - constructor.
    + rewrite in_app_iff. cbn. intros [Hin|[->|[]]].
      * exact (Hx Hin).
      * apply Hn. left. reflexivity.
    + apply IH. intro Hin. apply Hn. right. exact Hin.
Qed.

Lemma inflight_fresh_add (l : list handle) (nh : handle) :
  NoDup l -> Forall (fun h => (h < nh)%positive) l ->
  NoDup (set_add nh l) /\
  Forall (fun h => (h < Pos.succ nh)%positive) (set_add nh l).
Proof.
  intros Hnd Hlt.
  assert (Hn : ~ In nh l).
  { intro Hin. rewrite Forall_forall in Hlt. specialize (Hlt _ Hin). lia. }
  rewrite set_add_fresh by exact Hn. split.
  - apply NoDup_snoc; assumption.
  - apply Forall_app. split.
    + eapply Forall_impl; [|exact Hlt]. cbn. intros h Hh. lia.
    + constructor; [lia|constructor].
Qed.

Lemma playAudio_inflight_fresh (m : LiveServerMessage) (t : Q)
  (s : LiveSession) :
  inflight_fresh s -> inflight_fresh (snd (playAudio decode m t s)).
Proof.
  intro H. unfold playAudio.
  destruct (truthy (inlineData m)) as [p|]; [|exact H].
  destruct s as [st vol ictx octx ms pr isrc og an se nx srcs af cr nh cs].
  destruct octx as [ctx|]; [|exact H].
  unfold inflight_fresh in *. cbn [sourcesRef nextHandle] in H.
  destruct H as [Hnd Hlt].
  cbv -[AudioUtils.decodeAudioData AudioUtils.duration Qmax Qplus
        app set_add Pos.succ Pos.lt].
  destruct (AudioUtils.decodeAudioData (decode p) 24000 1) as [buf|e];
    [destruct og|];
    cbv -[AudioUtils.duration Qmax Qplus app set_add Pos.succ Pos.lt].
  - apply inflight_fresh_add; assumption.
  - split; [exact Hnd|].
    eapply Forall_impl; [|exact Hlt]. cbn. intros h Hh. lia.
  - split; assumption.
Qed.

Lemma invoke_inflight_fresh (c : Callback) (s : LiveSession) :
  inflight_fresh s ->
  inflight_fresh (exec (invoke stop_throws decode c) s).
Proof.
  intro H. destruct c as [r|ic media cf bins|ch|m t|h| | |bins| | ];
    cbn [invoke].
  - unfold exec, bind.
    destruct r; try exact H;
      rewrite connect_setup_run by discriminate;
      (eapply inflight_fresh_grow; [| |exact H]; cbn; [reflexivity|lia]).
  - unfold exec.
    destruct (connect_resume_outcome ic media cf bins s)
      as [(s0 & -> & _) | (_ & ->)]; cbn [snd].
    + apply inflight_fresh_empty. unfold exec. rewrite disconnect_run.
      reflexivity.
    + eapply inflight_fresh_grow; [| |exact H]; cbn; [reflexivity|lia].
  - unfold exec. rewrite onopen_run. cbv zeta. cbn [snd].
    eapply inflight_fresh_grow; [| |exact H]; destruct s; cbn;
      [reflexivity|lia].
  - unfold exec, onmessage, bind.
    pose proof (playAudio_inflight_fresh m t H) as Hp.
    destruct (playAudio decode m t s) as [[c|e] s1]; cbn [snd] in *; auto.
    destruct (c && interrupted m); cbn [snd]; auto.
    apply inflight_fresh_empty. rewrite interrupt_run.
    destruct s1; reflexivity.
  - unfold exec, onended, modify. cbn [snd].
    destruct s; unfold inflight_fresh in *; cbn in *.
    destruct H as [Hnd Hlt]. split.
    + apply NoDup_filter. exact Hnd.
    + unfold set_delete. apply Forall_forall. intros x Hx.
      apply filter_In in Hx. destruct Hx as [Hx _].
      rewrite Forall_forall in Hlt. exact (Hlt _ Hx).
  - apply inflight_fresh_empty. unfold exec, onclose.
    rewrite disconnect_run. reflexivity.
  - apply inflight_fresh_empty. unfold exec. rewrite onerror_run.
    unfold exec. rewrite disconnect_run. reflexivity.
  - unfold exec.
    destruct (connectedRef s) eqn:Hc.
    + destruct bins as [|b bins].
      * destruct (analyzerRef s) eqn:Ha.
        -- rewrite updateVolume_empty by congruence. exact H.
        -- destruct s; cbn in Hc, Ha; subst.
           eapply inflight_fresh_grow; [| |exact H]; cbn; [reflexivity|lia].
      * rewrite updateVolume_active by (try assumption; discriminate).
        eapply inflight_fresh_grow; [| |exact H]; destruct s; cbn;
          [reflexivity|lia].
    + rewrite updateVolume_idle by assumption. exact H.
  - apply inflight_fresh_empty. unfold exec. rewrite disconnect_run.
    reflexivity.
  - apply inflight_fresh_empty. unfold exec, unmount.
    rewrite disconnect_run. reflexivity.
Qed.

Lemma invoke_cursor_nonneg (c : Callback) (s : LiveSession) :
  0 <= nextStartTimeRef s ->
  0 <= nextStartTimeRef (exec (invoke stop_throws decode c) s).
Proof.
  intro H. destruct c as [r|ic media cf bins|ch|m t|h| | |bins| | ];
    cbn [invoke].
  - unfold exec, bind.
    destruct r; try exact H; rewrite connect_setup_run by discriminate;
      exact H.
  - unfold exec.
    destruct (connect_resume_outcome ic media cf bins s)
      as [(s0 & -> & Hs0) | (_ & ->)]; cbn [snd].
    + unfold exec. rewrite disconnect_run. cbn. rewrite Hs0. exact H.
    + exact H.
  - unfold exec. rewrite onopen_run. destruct s; exact H.
  - unfold exec, onmessage, bind.
    pose proof (playAudio_cursor_le m t s) as Hp.
    destruct (playAudio decode m t s) as [[c|e] s1]; cbn [snd] in *.
    + destruct (c && interrupted m); cbn [snd].
      * rewrite interrupt_run. destruct s1; cbn. apply Qle_refl.
      * apply Qle_trans with (nextStartTimeRef s); assumption.
    + apply Qle_trans with (nextStartTimeRef s); assumption.
  - destruct s; exact H.
  - unfold exec, onclose. rewrite disconnect_run. exact H.
  - unfold exec. rewrite onerror_run. unfold exec. rewrite disconnect_run.
    exact H.
  - unfold exec.
    destruct (connectedRef s) eqn:Hc.
    + destruct bins as [|b bins].
      * destruct (analyzerRef s) eqn:Ha.
        -- rewrite updateVolume_empty by congruence. exact H.
        -- destruct s; cbn in Hc, Ha; subst. exact H.
      * rewrite updateVolume_active by (try assumption; discriminate).
        destruct s; exact H.
    + rewrite updateVolume_idle by assumption. exact H.
  - unfold exec. rewrite disconnect_run. exact H.
  - unfold exec, unmount. rewrite disconnect_run. exact H.
Qed.

Lemma fold_left_add_range (rest : list Z) (acc : Z) :
  byte_valued rest ->
  (acc <= fold_left Z.add rest acc
   <= acc + 255 * Z.of_nat (List.length rest))%Z.
Proof.
  unfold byte_valued. intro H. revert acc.
  induction H as [|b rest Hb _ IH]; intro acc; cbn [fold_left List.length].
  - lia.
  - specialize (IH (acc + b)%Z). lia.
Qed.

(** The mean of a non-empty array of bytes is between 0 and 255. *)
Lemma mean_range (bins : list Z) :
  bins <> [] -> byte_valued bins -> 0 <= mean bins <= 255.
Proof.
  intros Hne Hb. destruct bins as [|b rest]; [congruence|].
  unfold byte_valued in Hb. inversion Hb as [|? ? Hb0 Hrest]; subst.
  pose proof (@fold_left_add_range rest b Hrest) as Hsum.
  unfold mean. cbn [hd tl List.length].
  set (total := fold_left Z.add rest b) in *.
  set (n := Z.of_nat (S (List.length rest))).
  assert (Hn : (0 < n)%Z) by (unfold n; lia).
  assert (Ht : (0 <= total <= 255 * n)%Z) by (unfold n; lia).
  clearbody total n.
  assert (Hnq : 0 < inject_Z n)
    by (unfold Qlt, inject_Z; cbn [Qnum Qden]; lia).
  split.
  - apply Qle_shift_div_l; [exact Hnq|].
    unfold Qle, Qmult, inject_Z; cbn [Qnum Qden]. lia.
  - apply Qle_shift_div_r; [exact Hnq|].
    unfold Qle, Qmult, inject_Z; cbn [Qnum Qden]. lia.
Qed.

Lemma invoke_volume_range (c : Callback) (s : LiveSession) :
  frames_byte_valued c ->
  0 <= volume s <= 255 ->
  0 <= volume (exec (invoke stop_throws decode c) s) <= 255.
Proof.
  intros Hb H.
  assert (H0 : 0 <= 0 <= 255) by (split; discriminate).
  destruct c as [r|ic media cf bins|ch|m t|h| | |bins| | ];
    cbn [invoke frames_byte_valued] in *.
  - unfold exec, bind.
    destruct r; try exact H; rewrite connect_setup_run by discriminate;
      exact H.
  - unfold exec.
    destruct (connect_resume_outcome ic media cf bins s)
      as [(s0 & -> & _) | (Hok & ->)]; cbn [snd].
    + unfold exec. rewrite disconnect_run. exact H0.
    + cbn [volume]. destruct (analyzerRef s); cbn [is_set]; [|exact H].
      destruct Hok as [Hno|Hne]; [discriminate|].
      apply mean_range; assumption.
  - unfold exec. rewrite onopen_run. destruct s; exact H.
  - pose proof (onmessage_frame stop_throws decode m t s) as Hf.
    destruct Hf as (_ & Hv & _). rewrite Hv. exact H.
  - destruct s; exact H.
  - unfold exec, onclose. rewrite disconnect_run. exact H0.
  - unfold exec. rewrite onerror_run. unfold exec. rewrite disconnect_run.
    exact H0.
  - unfold exec.
    destruct (connectedRef s) eqn:Hc.
    + destruct bins as [|b bins].
      * destruct (analyzerRef s) eqn:Ha.
        -- rewrite updateVolume_empty by congruence. exact H.
        -- destruct s; cbn in Hc, Ha; subst. exact H.
      * rewrite updateVolume_active by (try assumption; discriminate).
        assert (Hv : volume
                       (snd (Normal tt,
                          set_animationFrameRef (Some (nextHandle s))
                            (set_calls
                               (calls s ++
                                [RequestAnimationFrame (nextHandle s)])
                               (set_nextHandle (Pos.succ (nextHandle s))
                                  (set_volume
                                     (if is_set (analyzerRef s)
                                      then mean (b :: bins)
                                      else volume s) s)))))
                     = if is_set (analyzerRef s) then mean (b :: bins)
                       else volume s) by (destruct s; reflexivity).
        rewrite Hv. destruct (is_set (analyzerRef s)); [|exact H].
        apply mean_range; [discriminate | exact Hb].
    + rewrite updateVolume_idle by assumption. exact H.
  - unfold exec. rewrite disconnect_run. exact H0.
  - unfold exec, unmount. rewrite disconnect_run. exact H0.
Qed.

(** Under consistent refs a message handler can only fail in the decoder:
    the gain node it connects the new source to is there whenever the
    output context is. *)
Lemma onmessage_throws_in_decoder (s : LiveSession)
  (m : LiveServerMessage) (t : Q) :
  refs_consistent s ->
  throws (onmessage stop_throws decode m t) s = true ->
  exists p e,
    truthy (inlineData m) = Some p /\
    AudioUtils.decodeAudioData (decode p) 24000 1 = Throw e.
Proof.
  intros (Hgain & _) Hthrow.
  unfold throws, onmessage, bind in Hthrow.
  destruct (playAudio decode m t s) as [[c|e] s1] eqn:Hplay.
  - exfalso. destruct (c && interrupted m); cbn in Hthrow.
    + rewrite interrupt_run in Hthrow. discriminate.
    + discriminate.
  - clear Hthrow. unfold playAudio in Hplay.
    destruct (truthy (inlineData m)) as [p|] eqn:Hp; [|discriminate].
    exists p.
    destruct (AudioUtils.decodeAudioData (decode p) 24000 1)
      as [buf|e'] eqn:Hdec; [exfalso | exists e'; split; reflexivity].
    destruct s as [st vol ictx octx ms pr isrc og an se nx srcs af cr nh cs].
    cbn [outputAudioContextRef outputGainRef analyzerRef] in Hgain.
    destruct octx as [ctx|]; [|discriminate].
    destruct og as [g|].
    + revert Hplay.
      cbv -[AudioUtils.decodeAudioData AudioUtils.duration Qmax Qplus
            app set_add Pos.succ].
      discriminate.
    + destruct Hgain as [Hg _]; [discriminate | congruence].
Qed.

Lemma Forall_trivial (cs : list Callback) : Forall (fun _ => True) cs.
Proof. apply Forall_forall. trivial. Qed.

Lemma initial_refs_consistent : refs_consistent initialSession.
Proof. unfold refs_consistent. cbn. repeat split; congruence. Qed.

(** Whatever callbacks have run since the hook was mounted, in whatever
    order and with whatever arguments, the refs agree: the gain node and
    the analyser are set whenever the output context is, the two contexts
    are set together, the processor and the input source are set together,
    an animation frame is only pending while the connected flag is set, and
    the flag is set whenever the status is [connected]. *)
Theorem refs_stay_consistent (cs : list Callback) :
  refs_consistent (run_callbacks stop_throws decode cs initialSession).
Proof.
  apply run_callbacks_keeps with (Q := fun _ => True).
  - intros c s _. apply invoke_refs_consistent.
  - apply Forall_trivial.
  - exact initial_refs_consistent.
Qed.

(** In every session reached from the mounted hook the in-flight set holds
    no source twice and only sources the hook has created. *)
Theorem inflight_stays_fresh (cs : list Callback) :
  inflight_fresh (run_callbacks stop_throws decode cs initialSession).
Proof.
  apply run_callbacks_keeps with (Q := fun _ => True).
  - intros c s _. apply invoke_inflight_fresh.
  - apply Forall_trivial.
  - apply inflight_fresh_empty. reflexivity.
Qed.

(** In every session reached from the mounted hook the [nextStartTime]
    cursor is at or after time zero, whatever clock values the messages
    came with. *)
Theorem cursor_stays_nonnegative (cs : list Callback) :
  0 <= nextStartTimeRef (run_callbacks stop_throws decode cs initialSession).
Proof.
  apply run_callbacks_keeps
    with (P := fun s => 0 <= nextStartTimeRef s) (Q := fun _ => True).
  - intros c s _. apply invoke_cursor_nonneg.
  - apply Forall_trivial.
  - apply Qle_refl.
Qed.

(** As long as the analyser hands out bytes, the published volume stays
    between 0 and 255 in every session reached from the mounted hook. *)
Theorem volume_stays_in_range (cs : list Callback) :
  Forall frames_byte_valued cs ->
  0 <= volume (run_callbacks stop_throws decode cs initialSession) <= 255.
Proof.
  intro Hb.
  apply run_callbacks_keeps
    with (P := fun s => 0 <= volume s <= 255) (Q := frames_byte_valued).
  - intros c s. apply invoke_volume_range.
  - exact Hb.
  - split; discriminate.
Qed.

(** In every session reached from the mounted hook, the only way handling
    a message can raise is the decoder rejecting its payload: the non-null
    assertion on the gain node of line 186 never fails. *)
Theorem message_fails_only_in_decoder (cs : list Callback)
  (m : LiveServerMessage) (t : Q) :
  throws (onmessage stop_throws decode m t)
    (run_callbacks stop_throws decode cs initialSession) = true ->
  exists p e,
    truthy (inlineData m) = Some p /\
    AudioUtils.decodeAudioData (decode p) 24000 1 = Throw e.
Proof.
  apply onmessage_throws_in_decoder.
  apply run_callbacks_keeps with (Q := fun _ => True).
  - intros c s _. apply invoke_refs_consistent.
  - apply Forall_trivial.
  - exact initial_refs_consistent.
Qed.

End Behaviour.

(** ** Further behaviour of the visualizer and the application *)

Lemma Visualizer_styles_bounded (v : Q) (isActive : bool) :
  0 <= v <= 255 ->
  styles_bounded (Visualizer.Visualizer v isActive).
Proof.
  intros [Hlo Hhi].
  unfold styles_bounded, Visualizer.Visualizer, Visualizer.scale,
    Visualizer.opacity.
  cbn [Visualizer.outerPulseScale Visualizer.outerPulseOpacity
       Visualizer.middleRingScale Visualizer.middleRingOpacity
       Visualizer.innerCoreScale].
  unfold Qdiv, Qinv; cbn [Qnum Qden].
  destruct isActive; repeat split; lra.
Qed.

(** For a volume between 0 and 255 every style the visualizer renders is
    within fixed bounds, the opacities within [0, 1]; and while active no
    style decreases when the volume rises. *)
Theorem visualizer_styles_bounded_monotone (v1 v2 : Q) (isActive : bool) :
  0 <= v1 -> v1 <= v2 -> v2 <= 255 ->
  let r1 := Visualizer.Visualizer v1 true in
  let r2 := Visualizer.Visualizer v2 true in
  styles_bounded (Visualizer.Visualizer v1 isActive) /\
  Visualizer.outerPulseScale r1 <= Visualizer.outerPulseScale r2 /\
  Visualizer.outerPulseOpacity r1 <= Visualizer.outerPulseOpacity r2 /\
  Visualizer.middleRingScale r1 <= Visualizer.middleRingScale r2 /\
  Visualizer.middleRingOpacity r1 <= Visualizer.middleRingOpacity r2 /\
  Visualizer.innerCoreScale r1 <= Visualizer.innerCoreScale r2.
Proof.
  intros H0 H12 H255. cbv zeta. split.
  - apply Visualizer_styles_bounded. split; lra.
  - unfold Visualizer.Visualizer, Visualizer.scale, Visualizer.opacity.
    cbn [Visualizer.outerPulseScale Visualizer.outerPulseOpacity
         Visualizer.middleRingScale Visualizer.middleRingOpacity
         Visualizer.innerCoreScale].
    unfold Qdiv, Qinv; cbn [Qnum Qden].
    repeat split; lra.
Qed.

Section ApplicationBehaviour.

Variable stop_throws : handle -> bool.
Variable decode : string -> list Z.

(** As long as the analyser hands out bytes, what [App] passes to the
    visualizer keeps every rendered style within its bounds, in every
    session reached from the mounted hook. *)
Theorem rendered_styles_stay_bounded (cs : list Callback) :
  Forall frames_byte_valued cs ->
  styles_bounded
    (renderedVisualizer
       (run_callbacks stop_throws decode cs initialSession)).
Proof.
  intro Hb. unfold renderedVisualizer.
  apply Visualizer_styles_bounded.
  apply run_callbacks_keeps
    with (P := fun s => 0 <= volume s <= 255) (Q := frames_byte_valued).
  - intros c s. apply invoke_volume_range.
  - exact Hb.
  - split; discriminate.
Qed.

Lemma setup_attempts_teardown (s : LiveSession) :
  setup_attempts (teardown_calls s) = 0%nat.
Proof.
  unfold teardown_calls. rewrite !setup_attempts_app.
  assert (Hstop : setup_attempts (map SourceStop (sourcesRef s)) = 0%nat).
  { induction (sourcesRef s) as [|h l IH]; [reflexivity | exact IH]. }
  rewrite Hstop.
  destruct (processorRef s), (inputSourceRef s), (mediaStreamRef s),
    (inputAudioContextRef s), (outputAudioContextRef s),
    (animationFrameRef s); reflexivity.
Qed.

(** The button handler: while the status is [connected] or [connecting] it
    tears the session down and starts nothing; from [disconnected], and
    just as well from [error], it starts one setup attempt and the status
    becomes [connecting]. *)
Theorem handleToggle_stops_or_starts (s : LiveSession) :
  let s' := exec (handleToggle stop_throws (status s)) s in
  match status s with
  | connected | connecting =>
      s' = exec (disconnect stop_throws) s /\
      torn_down s' /\
      setup_attempts (calls s') = setup_attempts (calls s)
  | disconnected | error =>
      status s' = connecting /\
      setup_attempts (calls s') = S (setup_attempts (calls s)) /\
      inputAudioContextRef s' = Some (nextHandle s) /\
      outputAudioContextRef s' = Some (Pos.succ (nextHandle s))
  end.
Proof.
  cbv zeta. unfold handleToggle, exec.
  destruct (status s) eqn:Hst.
  - rewrite connect_setup_run by discriminate. cbv zeta. cbn [snd].
    cbn [status calls inputAudioContextRef outputAudioContextRef].
    rewrite setup_attempts_app. cbn. repeat split; lia.
  - unfold bind. rewrite disconnect_run. unfold ret. cbn [snd].
    unfold torn_down, released. cbn [status volume connectedRef processorRef
      inputSourceRef mediaStreamRef inputAudioContextRef
      outputAudioContextRef sourcesRef animationFrameRef calls].
    rewrite setup_attempts_app, setup_attempts_teardown. repeat split. lia.
  - unfold bind. rewrite disconnect_run. unfold ret. cbn [snd].
    unfold torn_down, released. cbn [status volume connectedRef processorRef
      inputSourceRef mediaStreamRef inputAudioContextRef
      outputAudioContextRef sourcesRef animationFrameRef calls].
    rewrite setup_attempts_app, setup_attempts_teardown. repeat split. lia.
  - rewrite connect_setup_run by discriminate. cbv zeta. cbn [snd].
    cbn [status calls inputAudioContextRef outputAudioContextRef].
    rewrite setup_attempts_app. cbn. repeat split; lia.
Qed.

(** A whole life of a session leaks nothing: starting torn down, a
    [connect] whose microphone is granted, the [open] of its channel and a
    [disconnect] end torn down again, and between them every context, node,
    stream and animation frame that was created is released, in the order
    of lines 68-99. *)
Theorem lifecycle_releases_what_it_creates (s : LiveSession)
  (bins : list Z) :
  torn_down s ->
  bins <> [] ->
  let h := nextHandle s in
  let h1 := Pos.succ h in
  let h2 := Pos.succ h1 in
  let h3 := Pos.succ h2 in
  let h4 := Pos.succ h3 in
  let h5 := Pos.succ h4 in
  let h6 := Pos.succ h5 in
  let h7 := Pos.succ h6 in
  let h8 := Pos.succ h7 in
  let s1 := exec (connect stop_throws (status s) Granted false bins) s in
  let s2 := exec (onopen (mkChannel h5 h h4)) s1 in
  let s3 := exec (disconnect stop_throws) s2 in
  sessionRef s1 = Some (mkChannel h5 h h4) /\
  torn_down s3 /\
  calls s3
  = calls s ++
    [NewAudioContext h 16000; NewAudioContext h1 24000;
     CreateAnalyser h1 h2 256; CreateGain h1 h3; NodeConnect h3 h2;
     NodeConnectDestination h2 h1; GetUserMedia; LiveConnect h5;
     RequestAnimationFrame h6;
     CreateMediaStreamSource h h4 h7; CreateScriptProcessor h h8;
     SetOnAudioProcess h8 true; NodeConnect h7 h8;
     NodeConnectDestination h8 h] ++
    [NodeDisconnect h8; SetOnAudioProcess h8 false; NodeDisconnect h7;
     TracksStop h4; ContextClose h; ContextClose h1;
     CancelAnimationFrame h6].
Proof.
  intros (Hst & Hvol & Hcr & Hp & Hi & Hm & Hic & Hoc & Hsrc & Haf) Hb.
  cbv zeta. unfold exec.
  rewrite Hst.
  rewrite (@connect_granted_run stop_throws disconnected bins s)
    by (try discriminate; exact Hb).
  cbv zeta. cbn [snd]. rewrite onopen_run. cbv zeta. cbn [snd].
  rewrite disconnect_run. cbn [snd].
  destruct s; cbn in *; subst.
  unfold torn_down, released. cbn.
  rewrite <- !app_assoc. cbn. repeat split; reflexivity.
Qed.

(** A [disconnect] that runs while [connect] is still waiting for the
    microphone does not stop that [connect]: when the microphone is then
    granted, the stream is stored, the channel opened, the connected flag
    set and a first volume published, although the status stays
    [disconnected] and both contexts are closed; the stream is held until
    the next [disconnect]. *)
Theorem disconnect_while_awaiting_leaves_stream_held (s : LiveSession)
  (bins : list Z) :
  torn_down s ->
  bins <> [] ->
  let h := nextHandle s in
  let h4 := Pos.succ (Pos.succ (Pos.succ (Pos.succ h))) in
  let h6 := Pos.succ (Pos.succ h4) in
  let s1 := exec (connect_setup (status s)) s in
  let s2 := exec (disconnect stop_throws) s1 in
  let s3 := exec (connect_resume stop_throws h Granted false bins) s2 in
  status s3 = disconnected /\
  inputAudioContextRef s3 = None /\
  outputAudioContextRef s3 = None /\
  mediaStreamRef s3 = Some h4 /\
  connectedRef s3 = true /\
  animationFrameRef s3 = Some h6 /\
  volume s3 = mean bins /\
  calls (exec (disconnect stop_throws) s3)
  = calls s3 ++ [TracksStop h4; CancelAnimationFrame h6].
Proof.
  intros (Hst & Hvol & Hcr & Hp & Hi & Hm & Hic & Hoc & Hsrc & Haf) Hb.
  cbv zeta. destruct bins as [|b bins]; [congruence|].
  destruct s; cbn in *; subst.
  cbv -[app Pos.succ Qdiv inject_Z fold_left Z.add List.length Z.of_nat].
  rewrite <- !app_assoc. repeat split; reflexivity.
Qed.

(** An [open] event that arrives after the session has been torn down
    still marks it [connected] and sets the connected flag, while the
    contexts and the stream stay released. *)
Theorem open_after_teardown_marks_connected (s : LiveSession)
  (ch : Channel) :
  let s' := exec (onopen ch) (exec (disconnect stop_throws) s) in
  status s' = connected /\
  connectedRef s' = true /\
  inputAudioContextRef s' = None /\
  outputAudioContextRef s' = None /\
  mediaStreamRef s' = None /\
  animationFrameRef s' = None.
Proof.
  cbv zeta. unfold exec. rewrite disconnect_run. cbn [snd].
  rewrite onopen_run. cbn. repeat split; reflexivity.
Qed.

End ApplicationBehaviour.

(** ** The further properties on sample inputs *)

Lemma audio_without_context_skips_interruption_witness :
  "abcd"%string <> EmptyString /\
  outputAudioContextRef initialSession = None /\
  onmessage stop_never_throws byte_codes
    (mkMessage (Some "abcd"%string) true) 0 initialSession
  = (Normal tt, initialSession).
Proof.
  assert (Hp : "abcd"%string <> EmptyString) by discriminate.
  split; [exact Hp|]. split; [reflexivity|].
  exact (@audio_without_context_skips_interruption stop_never_throws
           byte_codes initialSession "abcd" true 0 Hp eq_refl).
Defined.

Lemma cursor_never_moves_back_witness :
  interrupted (mkMessage (Some "ab"%string) false) = false /\
  nextStartTimeRef playing_session
  <= nextStartTimeRef
       (exec (onmessage stop_never_throws byte_codes
                (mkMessage (Some "ab"%string) false) 0)
          playing_session).
Proof.
  split; [reflexivity|].
  exact (@cursor_never_moves_back stop_never_throws byte_codes
           playing_session (mkMessage (Some "ab"%string) false) 0 eq_refl).
Defined.

Lemma chunk_with_interruption_is_stopped_witness :
  "ab"%string <> EmptyString /\
  AudioUtils.decodeAudioData (byte_codes "ab") 24000 1
  = Normal (AudioUtils.mkAudioBuffer 24000 1 [[25185 # 32768]]) /\
  outputAudioContextRef playing_session = Some 2%positive /\
  outputGainRef playing_session = Some 4%positive /\
  sourcesRef
    (exec (onmessage stop_never_throws byte_codes
             (mkMessage (Some "ab"%string) true) 0)
       playing_session)
  = [].
Proof.
  assert (Hp : "ab"%string <> EmptyString) by discriminate.
  split; [exact Hp|]. split; [reflexivity|].
  split; [reflexivity|]. split; [reflexivity|].
  destruct (@chunk_with_interruption_is_stopped stop_never_throws byte_codes
              playing_session "ab"
              (AudioUtils.mkAudioBuffer 24000 1 [[25185 # 32768]]) 0 2 4
              Hp eq_refl eq_refl eq_refl)
    as (_ & _ & Hsrc & _).
  exact Hsrc.
Defined.

Lemma chunk_after_interruption_starts_at_clock_witness :
  let c : Chunk :=
    ("ab"%string, AudioUtils.mkAudioBuffer 24000 1 [[25185 # 32768]], 1) in
  decodes byte_codes c /\
  outputAudioContextRef playing_session = Some 2%positive /\
  outputGainRef playing_session = Some 4%positive /\
  0 <= snd c /\
  exists start,
    start == 1 /\
    sourcesRef
      (exec (uncurry (onmessage stop_never_throws byte_codes)
               (chunk_message c))
         (exec (interrupt stop_never_throws) playing_session))
    = [nextHandle playing_session] /\
    nextStartTimeRef
      (exec (uncurry (onmessage stop_never_throws byte_codes)
               (chunk_message c))
         (exec (interrupt stop_never_throws) playing_session))
    = start + (1 # 24000).
Proof.
  cbv zeta.
  assert (Hc : decodes byte_codes
                 ("ab"%string,
                  AudioUtils.mkAudioBuffer 24000 1 [[25185 # 32768]], 1))
    by (split; [discriminate | reflexivity]).
  assert (Ht : 0 <= 1) by discriminate.
  split; [exact Hc|]. split; [reflexivity|]. split; [reflexivity|].
  split; [exact Ht|].
  destruct (@chunk_after_interruption_starts_at_clock stop_never_throws
              byte_codes playing_session _ 2 4 Hc eq_refl eq_refl Ht)
    as (start & Hstart & _ & Hnext & Hsrc).
  exists start. split; [exact Hstart|]. split; [exact Hsrc | exact Hnext].
Defined.

Lemma onended_removes_its_source_witness :
  ~ In 1%positive (sourcesRef initialSession) /\
  onended 1 initialSession = (Normal tt, initialSession).
Proof.
  assert (Hn : ~ In 1%positive (sourcesRef initialSession))
    by (intros []).
  split; [exact Hn|].
  destruct (onended_removes_its_source initialSession 1)
    as (_ & _ & _ & _ & Habsent).
  exact (Habsent Hn).
Defined.

Lemma schedule_then_ended_restores_inflight_witness :
  let c : Chunk :=
    ("ab"%string, AudioUtils.mkAudioBuffer 24000 1 [[25185 # 32768]], 0) in
  decodes byte_codes c /\
  outputAudioContextRef playing_session = Some 2%positive /\
  outputGainRef playing_session = Some 4%positive /\
  Forall (fun h => (h < nextHandle playing_session)%positive)
    (sourcesRef playing_session) /\
  sourcesRef
    (exec (onended (nextHandle playing_session))
       (exec (uncurry (onmessage stop_never_throws byte_codes)
                (chunk_message c))
          playing_session))
  = sourcesRef playing_session.
Proof.
  cbv zeta.
  assert (Hc : decodes byte_codes
                 ("ab"%string,
                  AudioUtils.mkAudioBuffer 24000 1 [[25185 # 32768]], 0))
    by (split; [discriminate | reflexivity]).
  assert (Hf : Forall (fun h => (h < nextHandle playing_session)%positive)
                 (sourcesRef playing_session))
    by (vm_compute; repeat constructor).
  split; [exact Hc|]. split; [reflexivity|]. split; [reflexivity|].
  split; [exact Hf|].
  destruct (@schedule_then_ended_restores_inflight stop_never_throws
              byte_codes playing_session _ 2 4 Hc eq_refl eq_refl Hf)
    as (_ & Hback).
  exact Hback.
Defined.

Lemma sample_run_byte_valued : Forall frames_byte_valued sample_run.
Proof.
  unfold sample_run, frames_byte_valued, byte_valued, sample_bins.
  repeat constructor; discriminate.
Qed.

Lemma volume_stays_in_range_witness :
  Forall frames_byte_valued sample_run /\
  0 <= volume
         (run_callbacks stop_never_throws byte_codes sample_run
            initialSession)
  <= 255.
Proof.
  split; [exact sample_run_byte_valued|].
  exact (@volume_stays_in_range stop_never_throws byte_codes sample_run
           sample_run_byte_valued).
Defined.

Lemma message_fails_only_in_decoder_witness :
  throws (onmessage stop_never_throws byte_codes malformed_message 1)
    (run_callbacks stop_never_throws byte_codes sample_run initialSession)
  = true /\
  exists p e,
    truthy (inlineData malformed_message) = Some p /\
    AudioUtils.decodeAudioData (byte_codes p) 24000 1 = Throw e.
Proof.
  assert (Ht : throws
                 (onmessage stop_never_throws byte_codes malformed_message 1)
                 (run_callbacks stop_never_throws byte_codes sample_run
                    initialSession) = true) by (vm_compute; reflexivity).
  split; [exact Ht|].
  exact (@message_fails_only_in_decoder stop_never_throws byte_codes
           sample_run malformed_message 1 Ht).
Defined.

Lemma visualizer_styles_bounded_monotone_witness :
  0 <= 0 /\ 0 <= 255 /\ 255 <= 255 /\
  Visualizer.middleRingScale (Visualizer.Visualizer 0 true)
  <= Visualizer.middleRingScale (Visualizer.Visualizer 255 true).
Proof.
  assert (H0 : 0 <= 0) by discriminate.
  assert (H1 : 0 <= 255) by discriminate.
  assert (H2 : 255 <= 255) by discriminate.
  split; [exact H0|]. split; [exact H1|]. split; [exact H2|].
  destruct (@visualizer_styles_bounded_monotone 0 255 true H0 H1 H2)
    as (_ & _ & _ & Hmid & _).
  exact Hmid.
Defined.

Lemma rendered_styles_stay_bounded_witness :
  Forall frames_byte_valued sample_run /\
  styles_bounded
    (renderedVisualizer
       (run_callbacks stop_never_throws byte_codes sample_run
          initialSession)).
Proof.
  split; [exact sample_run_byte_valued|].
  exact (@rendered_styles_stay_bounded stop_never_throws byte_codes
           sample_run sample_run_byte_valued).
Defined.

Lemma initial_torn_down : torn_down initialSession.
Proof. unfold torn_down, released. cbn. repeat split; reflexivity. Qed.

Lemma lifecycle_releases_what_it_creates_witness :
  torn_down initialSession /\
  sample_bins <> [] /\
  torn_down
    (exec (disconnect stop_never_throws)
       (exec (onopen (mkChannel 6 1 5))
          (exec (connect stop_never_throws disconnected Granted false
                   sample_bins)
             initialSession))).
Proof.
  assert (Hb : sample_bins <> []) by discriminate.
  split; [exact initial_torn_down|]. split; [exact Hb|].
  destruct (@lifecycle_releases_what_it_creates stop_never_throws
              initialSession sample_bins initial_torn_down Hb)
    as (_ & Htorn & _).
  exact Htorn.
Defined.

Lemma disconnect_while_awaiting_leaves_stream_held_witness :
  torn_down initialSession /\
  sample_bins <> [] /\
  let s3 :=
    exec (connect_resume stop_never_throws 1 Granted false sample_bins)
      (exec (disconnect stop_never_throws)
         (exec (connect_setup disconnected) initialSession)) in
  status s3 = disconnected /\ mediaStreamRef s3 = Some 5%positive.
Proof.
  assert (Hb : sample_bins <> []) by discriminate.
  split; [exact initial_torn_down|]. split; [exact Hb|].
  destruct (@disconnect_while_awaiting_leaves_stream_held stop_never_throws
              initialSession sample_bins initial_torn_down Hb)
    as (Hst & _ & _ & Hms & _).
  split; [exact Hst | exact Hms].
Defined.
